(** * interactsh-server: the startup sequence of [cmd/interactsh-server/main.go]

    A shallow embedding of [main] and [shouldEnableAuth].  [main] is
    straight-line orchestration code: it reads the parsed flags, talks to a
    number of collaborators (the logger, [crypto/rand], the storage package,
    the protocol servers, the ACME package) and either exits or ends up
    waiting for a signal.  The embedding is a small state-and-exit monad that
    records every call to a collaborator in a trace; what the collaborators
    answer comes from an environment.

    The file has two parts: the definitions (the Go values, the monad,
    [main], and the vocabulary of the statements), and then the lemmas and
    the theorems. *)

From Stdlib Require Import ZArith Lia List Bool String Ascii.
From Stdlib Require Import Strings.Byte.
From stdpp Require Import base strings gmap list.

Open Scope string_scope.
Open Scope list_scope.
Open Scope Z_scope.

(** * Part I: definitions *)

(** ** Go values used by [main] *)

(** *** [time.Duration]: a signed 64-bit count of nanoseconds *)
Module time.

Definition Duration := Z.

(** Two's complement wrap-around of signed 64-bit arithmetic. *)
Definition wrap64 (z : Z) : Z := (z + 2 ^ 63) mod 2 ^ 64 - 2 ^ 63.

(** The product of two durations, as the machine computes it. *)
Definition mul (a b : Duration) : Duration := wrap64 (a * b).

Definition Nanosecond : Duration := 1.
Definition Microsecond : Duration := 1000 * Nanosecond.
Definition Millisecond : Duration := 1000 * Microsecond.
Definition Second : Duration := 1000 * Millisecond.
Definition Minute : Duration := 60 * Second.
Definition Hour : Duration := 60 * Minute.

(** [time.Duration(n)] for an [int] [n]. *)
Definition ofInt (n : Z) : Duration := wrap64 n.

End time.

(** *** [encoding/hex] *)
Module hex.

Definition hextable : string := "0123456789abcdef".

Definition digit (n : N) : ascii :=
  match String.get (N.to_nat n) hextable with
  | Some c => c
  | None => "0"%char
  end.

(** One source byte gives two characters: [hextable[v>>4]] and
    [hextable[v&0x0f]]. *)
Definition encodeByte (v : byte) : string :=
  let n := Byte.to_N v in
  String (digit (N.shiftr n 4)) (String (digit (N.land n 15)) EmptyString).

Fixpoint EncodeToString (src : list byte) : string :=
  match src with
  | [] => EmptyString
  | v :: rest => encodeByte v +:+ EncodeToString rest
  end.

Definition undigit (c : ascii) : option N :=
  let n := N_of_ascii c in
  if (48 <=? n)%N && (n <=? 57)%N then Some (n - 48)%N
  else if (97 <=? n)%N && (n <=? 102)%N then Some (n - 87)%N
  else None.

(** The inverse direction, used to show that encoding loses nothing. *)
Fixpoint DecodeString (s : string) : option (list byte) :=
  match s with
  | EmptyString => Some []
  | String hi (String lo rest) =>
      match undigit hi, undigit lo, DecodeString rest with
      | Some h, Some l, Some bs =>
          match Byte.of_N (h * 16 + l) with
          | Some b => Some (b :: bs)
          | None => None
          end
      | _, _, _ => None
      end
  | String _ EmptyString => None
  end.

End hex.

(** *** [strings.TrimSuffix] *)
Module gostrings.

Fixpoint HasSuffix (s suffix : string) : bool :=
  if String.eqb s suffix then true
  else match s with
       | EmptyString => false
       | String _ rest => HasSuffix rest suffix
       end.

(** [TrimSuffix(s, suffix)]: [s] without the trailing [suffix], or [s]
    itself when it does not end in [suffix]. *)
Definition TrimSuffix (s suffix : string) : string :=
  if HasSuffix s suffix
  then String.substring 0 (String.length s - String.length suffix) s
  else s.

End gostrings.

(** ** [server.Options] *)

(** References to the objects [main] allocates: the store, the servers, the
    TLS handle. *)
Definition ref := nat.

Module server.

(** The fields of [server.Options] that [main] reads or writes. *)
Record Options := mkOptions {
  Domain : string;
  IPAddress : string;
  ListenIP : string;
  Hostmaster : string;
  Auth : bool;
  Token : string;
  Template : bool;
  OriginURL : string;
  RootTLD : bool;
  Storage : option ref
}.

(** [options.Hostmaster = h]. *)
Definition setHostmaster (h : string) (o : Options) : Options :=
  mkOptions (Domain o) (IPAddress o) (ListenIP o) h (Auth o) (Token o)
            (Template o) (OriginURL o) (RootTLD o) (Storage o).

(** [options.Token = t]. *)
Definition setToken (t : string) (o : Options) : Options :=
  mkOptions (Domain o) (IPAddress o) (ListenIP o) (Hostmaster o) (Auth o) t
            (Template o) (OriginURL o) (RootTLD o) (Storage o).

(** [options.Storage = s]. *)
Definition setStorage (s : option ref) (o : Options) : Options :=
  mkOptions (Domain o) (IPAddress o) (ListenIP o) (Hostmaster o) (Auth o)
            (Token o) (Template o) (OriginURL o) (RootTLD o) s.

End server.
Import server.

(** ** [shouldEnableAuth] *)

(** [s != ""]. *)
Definition nonEmpty (s : string) : bool := negb (String.eqb s "").

Definition shouldEnableAuth (options : Options) (smb responder : bool) : bool :=
  Template options || responder || smb || RootTLD options
  || nonEmpty (Token options).

(** ** Collaborators of [main] *)

(** [gologger]'s levels. *)
Inductive Level :=
| LevelFatal | LevelSilent | LevelError | LevelInfo | LevelWarning
| LevelDebug | LevelVerbose.

(** The writer [main] installs when [-debug] is off. *)
Inductive Writer := noopWriter.

(** [func (n *noopWriter) Write(data []byte, level levels.Level) {}]: what
    has been written so far stays as it is. *)
Definition Write (n : Writer) (data : list byte) (level : Level)
    (written : list byte) : list byte :=
  written.

(** The two methods of the store handed to [nebula.AddFunc]. *)
Inductive StoreMethod := SetInternalById | CleanupInternalById.

(** The closure [func(txt string) { dnsServer.TxtRecord = txt }]: it
    captures the DNS server it writes to. *)
Inductive Callback := SetTxtRecordOf (dnsServer : ref).

(** What a [go] statement of [main] runs. *)
Inductive Task :=
| DNSListenAndServe (srv : ref)
| HTTPListenAndServe (srv : ref) (autoTLS : option ref)
| SMTPListenAndServe (srv : ref) (autoTLS : option ref)
| ResponderListenAndServe (srv : ref)
| SMBListenAndServe (srv : ref).

(** The calls [main] makes, in the order it makes them.  A call that can fail
    carries what it returned: [None] is a nil pointer, [failed] an error. *)
Inductive Event :=
| LoggerSetMaxLevel (l : Level)
| LoggerSetWriter (w : Writer)
| FmtPrintf (out : string)
| LogPrintf (out : string)
| Gologger (l : Level) (msg : string)
| RandRead (n : nat) (failed : bool)
| StorageNew (evictionTTL : time.Duration) (store : ref)
| SetGlobalStorage (store : ref)
| NebulaRefresh
| NebulaAddFunc (name : string) (m : StoreMethod) (store : ref) (failed : bool)
| StorageSetID (store : ref) (id : string) (failed : bool)
| NewDNSServer (o : Options) (srv : option ref)
| NewAutomaticTLS (email domains : string) (cb : Callback)
                  (autoTLS : option ref) (err : option string)
| NewHTTPServer (o : Options) (srv : option ref)
| NewSMTPServer (o : Options) (srv : option ref)
| NewResponderServer (o : Options) (srv : option ref)
| NewSMBServer (o : Options) (srv : option ref)
| Go (t : Task)
| Defer (close : ref)
| SignalNotify.

(** What the collaborators answer in one run of the process. *)
Record Env := mkEnv {
  randErr : bool;                (* [rand.Read] returns an error *)
  randStream : nat -> byte;      (* the bytes [rand.Read] delivers *)
  addFuncErr : string -> bool;   (* [nebula.AddFunc name] returns an error *)
  setIDErr : string -> bool;     (* [Storage.SetID id] returns an error *)
  dnsErr : bool;                 (* [server.NewDNSServer] returns an error *)
  acmeHandle : bool;             (* [acme.NewAutomaticTLS] returns a handle *)
  acmeErr : option string;       (* [acme.NewAutomaticTLS] returns this error *)
  httpErr : bool;                (* [server.NewHTTPServer] returns an error *)
  smtpErr : bool;                (* [server.NewSMTPServer] returns an error *)
  responderErr : bool;           (* [server.NewResponderServer] returns an error *)
  smbErr : bool                  (* [server.NewSMBServer] returns an error *)
}.

(** The parsed command line: the variables [flag.Parse] has filled in. *)
Record Flags := mkFlags {
  debug : bool;
  eviction : Z;
  skipacme : bool;
  smb : bool;
  responder : bool;
  unsafe : bool;
  options : Options
}.

(** ** The process monad: a trace, an allocator, and [os.Exit] *)

Record World := mkWorld {
  trace : list Event;
  nextRef : ref
}.

Inductive Res (A : Type) :=
| Done (a : A)
| Exited (code : Z).
Arguments Done {A} a.
Arguments Exited {A} code.

Definition Proc (A : Type) : Type := Env -> World -> Res A * World.

Definition ret {A} (a : A) : Proc A := fun _ w => (Done a, w).

Definition bind {A B} (m : Proc A) (k : A -> Proc B) : Proc B :=
  fun env w =>
    match m env w with
    | (Done a, w') => k a env w'
    | (Exited c, w') => (Exited c, w')
    end.

Declare Scope proc_scope.
Delimit Scope proc_scope with proc.
Bind Scope proc_scope with Proc.
Notation "'let*' x ':=' m 'in' k" := (bind m (fun x => k))
  (at level 10, x name, m at level 100, k at level 200) : proc_scope.
Notation "m ;; k" := (bind m (fun _ => k))
  (at level 100, k at level 200, right associativity) : proc_scope.
Open Scope proc_scope.

(** One more call in the trace. *)
Definition emit (e : Event) : Proc unit :=
  fun _ w => (Done tt, mkWorld (trace w ++ [e]) (nextRef w)).

(** What a collaborator answers. *)
Definition ask {A} (f : Env -> A) : Proc A := fun env w => (Done (f env), w).

(** A new object. *)
Definition alloc : Proc ref :=
  fun _ w => (Done (nextRef w), mkWorld (trace w) (S (nextRef w))).

(** [os.Exit(code)]. *)
Definition osExit {A} (code : Z) : Proc A := fun _ w => (Exited code, w).

Definition newline : string := String (ascii_of_nat 10) EmptyString.

(** [gologger.Fatal().Msgf(msg)]: the logger takes the event and then
    calls [os.Exit(1)]. *)
Definition fatal {A} (msg : string) : Proc A :=
  emit (Gologger LevelFatal msg) ;; osExit 1.

(** [gologger.Warning().Msgf(msg)]. *)
Definition warning (msg : string) : Proc unit := emit (Gologger LevelWarning msg).

(** A constructor of the [server] package: a new object, or nil and an
    error. *)
Definition construct (failed : Env -> bool) (ev : option ref -> Event)
  : Proc (option ref) :=
  let* err := ask failed in
  if err then emit (ev None) ;; ret None
  else let* r := alloc in emit (ev (Some r)) ;; ret (Some r).

(** [rand.Read(b)] on a buffer of [n] bytes: on success the buffer holds the
    next [n] bytes of the stream. *)
Definition randRead (n : nat) : Proc (option (list byte)) :=
  let* err := ask randErr in
  emit (RandRead n err) ;;
  if err then ret None
  else let* s := ask randStream in ret (Some (List.map s (List.seq 0 n))).

(** [storage.New(evictionTTL)]. *)
Definition storageNew (ttl : time.Duration) : Proc ref :=
  let* r := alloc in emit (StorageNew ttl r) ;; ret r.

(** [store.SetID(id)]; the error it returns is handed back to the caller. *)
Definition storageSetID (store : ref) (id : string) : Proc bool :=
  let* err := ask (fun env => setIDErr env id) in
  emit (StorageSetID store id err) ;; ret err.

(** [nebula.AddFunc(name, f)]. *)
Definition nebulaAddFunc (name : string) (m : StoreMethod) (store : ref)
  : Proc bool :=
  let* err := ask (fun env => addFuncErr env name) in
  emit (NebulaAddFunc name m store err) ;; ret err.

(** [acme.NewAutomaticTLS(email, domains, cb)]: a handle and an error, as
    the package returns them. *)
Definition newAutomaticTLS (email domains : string) (cb : Callback)
  : Proc (option ref * option string) :=
  let* h := ask acmeHandle in
  let* err := ask acmeErr in
  let* autoTLS := (if h then let* r := alloc in ret (Some r) else ret None) in
  emit (NewAutomaticTLS email domains cb autoTLS err) ;;
  ret (autoTLS, err).

(** ** [main] *)

(** [time.Duration(eviction) * time.Hour * 24]. *)
Definition evictionTTL (eviction : Z) : time.Duration :=
  time.mul (time.mul (time.ofInt eviction) time.Hour) 24.

(** [main], from the line after [flag.Parse()] to the loop that waits for a
    signal.  The servers keep the pointer [options]; [main] does not write
    to it after the first server is created, so each constructor is recorded
    with the value the options have when it is called. *)
Definition main (fl : Flags) : Proc unit :=
  let options := options fl in
  let options :=
    if String.eqb (Hostmaster options) ""
    then setHostmaster ("admin@" +:+ Domain options) options
    else options in
  (if debug fl then emit (LoggerSetMaxLevel LevelDebug)
   else emit (LoggerSetWriter noopWriter)) ;;
  (* responder and smb can't be active at the same time *)
  (if responder fl && smb fl
   then emit (FmtPrintf ("responder and smb can't be active at the same time"
                         +:+ newline)) ;;
        osExit 1
   else ret tt) ;;
  let enableAuth := shouldEnableAuth options (smb fl) (responder fl) in
  let* options :=
    (if enableAuth && String.eqb (Token options) ""
     then
       let* b := randRead 32 in
       match b with
       | None => fatal ("Could not generate token" +:+ newline)
       | Some b =>
           let options := setToken (hex.EncodeToString b) options in
           emit (LogPrintf ("Client Token: " +:+ Token options +:+ newline)) ;;
           ret options
       end
     else ret options) in
  let* store := storageNew (evictionTTL (eviction fl)) in
  let options := setStorage (Some store) options in
  (* we set a global instance for nebula interactions *)
  emit (SetGlobalStorage store) ;;
  emit NebulaRefresh ;;
  let* _ := nebulaAddFunc "store_info" SetInternalById store in
  let* _ := nebulaAddFunc "cleanup_info" CleanupInternalById store in
  (if enableAuth
   then let* _ := storageSetID store (Token options) in ret tt
   else ret tt) ;;
  (* if root-tld is enabled create a singleton unencrypted record *)
  (if RootTLD options
   then let* _ := storageSetID store (Domain options) in ret tt
   else ret tt) ;;
  let* dnsServer := construct dnsErr (NewDNSServer options) in
  let* dnsServer :=
    match dnsServer with
    | None => fatal "Could not create DNS server"
    | Some srv => ret srv
    end in
  emit (Go (DNSListenAndServe dnsServer)) ;;
  let trimmedDomain := gostrings.TrimSuffix (Domain options) "." in
  let* autoTLS :=
    (if negb (skipacme fl)
     then
       let* r := newAutomaticTLS (Hostmaster options)
              ("*." +:+ trimmedDomain +:+ "," +:+ trimmedDomain)
              (SetTxtRecordOf dnsServer) in
       let autoTLS := fst r in
       match snd r with
       | Some err =>
           warning ("An error occurred while applying for an certificate, error: "
                    +:+ err) ;;
           warning "Could not generate certs for auto TLS, https will be disabled" ;;
           ret autoTLS
       | None => ret autoTLS
       end
     else ret None) in
  let* httpServer := construct httpErr (NewHTTPServer options) in
  let* httpServer :=
    match httpServer with
    | None => fatal "Could not create HTTP server"
    | Some srv => ret srv
    end in
  emit (Go (HTTPListenAndServe httpServer autoTLS)) ;;
  let* smtpServer := construct smtpErr (NewSMTPServer options) in
  let* smtpServer :=
    match smtpServer with
    | None => fatal "Could not create SMTP server"
    | Some srv => ret srv
    end in
  emit (Go (SMTPListenAndServe smtpServer autoTLS)) ;;
  (if responder fl
   then
     let* responderServer := construct responderErr (NewResponderServer options) in
     match responderServer with
     | None => fatal "Could not create SMB server"
     | Some srv => emit (Go (ResponderListenAndServe srv)) ;; emit (Defer srv)
     end
   else ret tt) ;;
  (if smb fl
   then
     let* smbServer := construct smbErr (NewSMBServer options) in
     match smbServer with
     | None => fatal "Could not create SMB server"
     | Some srv => emit (Go (SMBListenAndServe srv)) ;; emit (Defer srv)
     end
   else ret tt) ;;
  emit (LogPrintf ("Listening on DNS, SMTP and HTTP ports" +:+ newline)) ;;
  emit SignalNotify.

Definition initialWorld : World := mkWorld [] 0%nat.

(** One run of the process: what [main] did, and whether it exited
    ([Exited]) or reached the loop that waits for a signal ([Done]). *)
Definition run (fl : Flags) (env : Env) : Res unit * World :=
  main fl env initialWorld.

Definition calls (fl : Flags) (env : Env) : list Event := trace (snd (run fl env)).

Definition result (fl : Flags) (env : Env) : Res unit := fst (run fl env).

(** ** [main] in three blocks

    For the proofs [main] is cut where its control flow is: the
    configuration block (lines 46-70) can exit, the store block (lines
    72-89) cannot, the listener block (lines 91-144) can.  The blocks are
    proof devices; [main_blocks] below shows that [main] is their
    composition. *)

(** Lines 46-48: the default hostmaster. *)
Definition withHostmaster (o : Options) : Options :=
  if String.eqb (Hostmaster o) ""
  then setHostmaster ("admin@" +:+ Domain o) o
  else o.

(** Lines 46-70: logger, exclusive companions, token. *)
Definition configure (fl : Flags) : Proc (bool * Options) :=
  let options := withHostmaster (options fl) in
  (if debug fl then emit (LoggerSetMaxLevel LevelDebug)
   else emit (LoggerSetWriter noopWriter)) ;;
  (if responder fl && smb fl
   then emit (FmtPrintf ("responder and smb can't be active at the same time"
                         +:+ newline)) ;;
        osExit 1
   else ret tt) ;;
  let enableAuth := shouldEnableAuth options (smb fl) (responder fl) in
  let* options :=
    (if enableAuth && String.eqb (Token options) ""
     then
       let* b := randRead 32 in
       match b with
       | None => fatal ("Could not generate token" +:+ newline)
       | Some b =>
           let options := setToken (hex.EncodeToString b) options in
           emit (LogPrintf ("Client Token: " +:+ Token options +:+ newline)) ;;
           ret options
       end
     else ret options) in
  ret (enableAuth, options).

(** Lines 72-89: the store and what is registered in it. *)
Definition storeSetup (fl : Flags) (enableAuth : bool) (options : Options)
  : Proc Options :=
  let* store := storageNew (evictionTTL (eviction fl)) in
  let options := setStorage (Some store) options in
  emit (SetGlobalStorage store) ;;
  emit NebulaRefresh ;;
  let* _ := nebulaAddFunc "store_info" SetInternalById store in
  let* _ := nebulaAddFunc "cleanup_info" CleanupInternalById store in
  (if enableAuth
   then let* _ := storageSetID store (Token options) in ret tt
   else ret tt) ;;
  (if RootTLD options
   then let* _ := storageSetID store (Domain options) in ret tt
   else ret tt) ;;
  ret options.

(** Lines 91-144: DNS, certificates, HTTP, SMTP, companions, signal. *)
Definition startListeners (fl : Flags) (options : Options) : Proc unit :=
  let* dnsServer := construct dnsErr (NewDNSServer options) in
  let* dnsServer :=
    match dnsServer with
    | None => fatal "Could not create DNS server"
    | Some srv => ret srv
    end in
  emit (Go (DNSListenAndServe dnsServer)) ;;
  let trimmedDomain := gostrings.TrimSuffix (Domain options) "." in
  let* autoTLS :=
    (if negb (skipacme fl)
     then
       let* r := newAutomaticTLS (Hostmaster options)
              ("*." +:+ trimmedDomain +:+ "," +:+ trimmedDomain)
              (SetTxtRecordOf dnsServer) in
       let autoTLS := fst r in
       match snd r with
       | Some err =>
           warning ("An error occurred while applying for an certificate, error: "
                    +:+ err) ;;
           warning "Could not generate certs for auto TLS, https will be disabled" ;;
           ret autoTLS
       | None => ret autoTLS
       end
     else ret None) in
  let* httpServer := construct httpErr (NewHTTPServer options) in
  let* httpServer :=
    match httpServer with
    | None => fatal "Could not create HTTP server"
    | Some srv => ret srv
    end in
  emit (Go (HTTPListenAndServe httpServer autoTLS)) ;;
  let* smtpServer := construct smtpErr (NewSMTPServer options) in
  let* smtpServer :=
    match smtpServer with
    | None => fatal "Could not create SMTP server"
    | Some srv => ret srv
    end in
  emit (Go (SMTPListenAndServe smtpServer autoTLS)) ;;
  (if responder fl
   then
     let* responderServer := construct responderErr (NewResponderServer options) in
     match responderServer with
     | None => fatal "Could not create SMB server"
     | Some srv => emit (Go (ResponderListenAndServe srv)) ;; emit (Defer srv)
     end
   else ret tt) ;;
  (if smb fl
   then
     let* smbServer := construct smbErr (NewSMBServer options) in
     match smbServer with
     | None => fatal "Could not create SMB server"
     | Some srv => emit (Go (SMBListenAndServe srv)) ;; emit (Defer srv)
     end
   else ret tt) ;;
  emit (LogPrintf ("Listening on DNS, SMTP and HTTP ports" +:+ newline)) ;;
  emit SignalNotify.

Definition blocks (fl : Flags) : Proc unit :=
  let* c := configure fl in
  let* options := storeSetup fl (fst c) (snd c) in
  startListeners fl options.

(** ** The trace is write-only *)

Definition fresh (w : World) : World := mkWorld [] (nextRef w).

Definition extend (w : World) (evs : list Event) (next : ref) : World :=
  mkWorld (trace w ++ evs) next.

(** Running [m] from [w] is running it from an empty trace and appending. *)
Definition framed {A} (m : Proc A) : Prop :=
  forall env w,
    m env w =
    (fst (m env (fresh w)),
     extend w (trace (snd (m env (fresh w)))) (nextRef (snd (m env (fresh w))))).

(** ** What each block does *)

Definition loggerSetup (fl : Flags) : Event :=
  if debug fl then LoggerSetMaxLevel LevelDebug else LoggerSetWriter noopWriter.

Definition conflictMessage : string :=
  "responder and smb can't be active at the same time" +:+ newline.

Definition tokenFailure : string := "Could not generate token" +:+ newline.

(** The value of [enableAuth] at line 61. *)
Definition enableAuth (fl : Flags) : bool :=
  shouldEnableAuth (withHostmaster (options fl)) (smb fl) (responder fl).

(** The condition of line 63. *)
Definition needsToken (fl : Flags) : bool :=
  enableAuth fl && String.eqb (Token (withHostmaster (options fl))) "".

(** The buffer after a successful [rand.Read] and its encoding. *)
Definition randomBytes (env : Env) : list byte :=
  List.map (randStream env) (List.seq 0 32).

Definition generatedToken (env : Env) : string :=
  hex.EncodeToString (randomBytes env).

(** The options after line 70. *)
Definition configured (fl : Flags) (env : Env) : Options :=
  if needsToken fl
  then setToken (generatedToken env) (withHostmaster (options fl))
  else withHostmaster (options fl).

(** The calls of lines 46-70 when startup gets past them. *)
Definition configureCalls (fl : Flags) (env : Env) : list Event :=
  loggerSetup fl ::
  (if needsToken fl
   then [RandRead 32 false;
         LogPrintf ("Client Token: " +:+ generatedToken env +:+ newline)]
   else []).

(** The calls of lines 72-89. *)
Definition storeCalls (fl : Flags) (enableAuth : bool) (o : Options)
    (store : ref) (env : Env) : list Event :=
  [StorageNew (evictionTTL (eviction fl)) store;
   SetGlobalStorage store;
   NebulaRefresh;
   NebulaAddFunc "store_info" SetInternalById store (addFuncErr env "store_info");
   NebulaAddFunc "cleanup_info" CleanupInternalById store
                 (addFuncErr env "cleanup_info")]
  ++ (if enableAuth
      then [StorageSetID store (Token o) (setIDErr env (Token o))]
      else [])
  ++ (if RootTLD o
      then [StorageSetID store (Domain o) (setIDErr env (Domain o))]
      else []).

(** The listener block run on its own, from an empty trace. *)
Definition listenerCalls (fl : Flags) (o : Options) (env : Env) (next : ref)
  : list Event :=
  trace (snd (startListeners fl o env (mkWorld [] next))).

Definition listenerResult (fl : Flags) (o : Options) (env : Env) (next : ref)
  : Res unit :=
  fst (startListeners fl o env (mkWorld [] next)).

(** The options every server is created with. *)
Definition served (fl : Flags) (env : Env) : Options :=
  setStorage (Some 0%nat) (configured fl env).

(** Startup gets as far as line 72: the companions do not exclude each
    other and, if a token has to be generated, it can be. *)
Definition reachesStore (fl : Flags) (env : Env) : bool :=
  negb (responder fl && smb fl) && negb (needsToken fl && randErr env).

(** The second argument of [acme.NewAutomaticTLS]. *)
Definition certDomains (o : Options) : string :=
  "*." +:+ gostrings.TrimSuffix (Domain o) "." +:+ ","
  +:+ gostrings.TrimSuffix (Domain o) ".".

Definition acmeWarning (err : string) : string :=
  "An error occurred while applying for an certificate, error: " +:+ err.

Definition httpsDisabled : string :=
  "Could not generate certs for auto TLS, https will be disabled".

(** ** Vocabulary of the statements *)

(** The calls only the listener block makes. *)
Definition listenerEvent (e : Event) : bool :=
  match e with
  | NewDNSServer _ _ | NewAutomaticTLS _ _ _ _ _ | NewHTTPServer _ _
  | NewSMTPServer _ _ | NewResponderServer _ _ | NewSMBServer _ _
  | Go _ | Defer _ | Gologger _ _ | LogPrintf _ | SignalNotify => true
  | _ => false
  end.

(** A server is created or a listener goroutine is started. *)
Definition touchesListener (e : Event) : bool :=
  match e with
  | NewDNSServer _ _ | NewAutomaticTLS _ _ _ _ _ | NewHTTPServer _ _
  | NewSMTPServer _ _ | NewResponderServer _ _ | NewSMBServer _ _
  | Go _ => true
  | _ => false
  end.

Definition isRandRead (e : Event) : bool :=
  match e with RandRead _ _ => true | _ => false end.

(** The only call of [main] that takes an eviction duration. *)
Definition constructsStore (e : Event) : bool :=
  match e with StorageNew _ _ => true | _ => false end.

(** The options a server constructor was called with. *)
Definition serverOptions (e : Event) : option Options :=
  match e with
  | NewDNSServer o _ | NewHTTPServer o _ | NewSMTPServer o _
  | NewResponderServer o _ | NewSMBServer o _ => Some o
  | _ => None
  end.

(** The certificate handle a listener is started with; [None] for a
    listener whose [ListenAndServe] takes none. *)
Definition certificateOf (t : Task) : option (option ref) :=
  match t with
  | HTTPListenAndServe _ a | SMTPListenAndServe _ a => Some a
  | _ => None
  end.

(** The steps of startup the specification names. *)
Inductive Step :=
| StoreCreated | DNSStarted | ACMECreated | HTTPStarted | SMTPStarted
| ResponderStarted | SMBStarted.

Definition step (e : Event) : option Step :=
  match e with
  | StorageNew _ _ => Some StoreCreated
  | Go (DNSListenAndServe _) => Some DNSStarted
  | NewAutomaticTLS _ _ _ _ _ => Some ACMECreated
  | Go (HTTPListenAndServe _ _) => Some HTTPStarted
  | Go (SMTPListenAndServe _ _) => Some SMTPStarted
  | Go (ResponderListenAndServe _) => Some ResponderStarted
  | Go (SMBListenAndServe _) => Some SMBStarted
  | _ => None
  end.

(** The steps a sequence of calls performs, in order. *)
Fixpoint steps (evs : list Event) : list Step :=
  match evs with
  | [] => []
  | e :: rest =>
      match step e with
      | Some s => s :: steps rest
      | None => steps rest
      end
  end.

(** The steps of the listener block when nothing fails. *)
Definition listenerPlan (fl : Flags) : list Step :=
  [DNSStarted] ++ (if skipacme fl then [] else [ACMECreated])
  ++ [HTTPStarted; SMTPStarted]
  ++ (if responder fl then [ResponderStarted] else [])
  ++ (if smb fl then [SMBStarted] else []).

(** The steps of a startup that completes, in the order of [main]. *)
Definition plan (fl : Flags) : list Step := StoreCreated :: listenerPlan fl.

(** The calls after which [main] gives up: a failed read of random bytes and
    a server constructor that returned nil. *)
Definition failure (e : Event) : bool :=
  match e with
  | RandRead _ true
  | NewDNSServer _ None | NewHTTPServer _ None | NewSMTPServer _ None
  | NewResponderServer _ None | NewSMBServer _ None => true
  | _ => false
  end.

(** The failures the specification names as fatal: the token, and the DNS,
    HTTP and SMTP servers. *)
Definition namedFailure (e : Event) : bool :=
  match e with
  | RandRead _ true
  | NewDNSServer _ None | NewHTTPServer _ None | NewSMTPServer _ None => true
  | _ => false
  end.

(** Two environments agree on the errors [main] treats as fatal. *)
Definition sameFatal (env env' : Env) : Prop :=
  randErr env = randErr env' /\ dnsErr env = dnsErr env' /\
  httpErr env = httpErr env' /\ smtpErr env = smtpErr env' /\
  responderErr env = responderErr env' /\ smbErr env = smbErr env'.

(** *** Statements of the specification that do not hold as they stand *)

(** The store is constructed once, with [eviction] times 24 hours. *)
Definition storeKeepsDays (fl : Flags) (env : Env) : Prop :=
  exists store,
    List.filter constructsStore (calls fl env) =
    [StorageNew (eviction fl * (24 * time.Hour)) store].

(** Every listener started after the DNS listener is handed the same
    certificate handle. *)
Definition listenersShareCertificate (fl : Flags) (env : Env) : Prop :=
  exists tls,
    forall t, In (Go t) (calls fl env) ->
              step (Go t) <> Some DNSStarted ->
              certificateOf t = Some tls.

(** Startup completes unless one of the named failures occurred. *)
Definition abortsOnlyOnNamed (fl : Flags) (env : Env) : Prop :=
  result fl env = Done tt \/
  exists e, In e (calls fl env) /\ namedFailure e = true.

(** *** Sample command lines and environments *)

(** No arguments: the defaults of the flags. *)
Definition defaultOptions : Options :=
  mkOptions "" "" "0.0.0.0" "" false "" false
            "https://interact.projectdiscovery.io" false None.

Definition defaultFlags : Flags :=
  mkFlags false 7 false false false false defaultOptions.

(** [-domain example.com -root-tld]. *)
Definition rootTLDFlags : Flags :=
  mkFlags false 7 false false false false
          (mkOptions "example.com" "" "0.0.0.0" "" false "" false
                     "https://interact.projectdiscovery.io" true None).

(** [-eviction 106752]. *)
Definition centuriesFlags : Flags :=
  mkFlags false 106752 false false false false defaultOptions.

(** [-responder]. *)
Definition responderFlags : Flags :=
  mkFlags false 7 false false true false defaultOptions.

(** [-responder -smb]. *)
Definition conflictFlags : Flags :=
  mkFlags false 7 false true true false defaultOptions.

(** Nothing fails. *)
Definition quietEnv : Env :=
  mkEnv false (fun _ => x00) (fun _ => false) (fun _ => false)
        false true None false false false false.

(** The certificate authority rejects the request. *)
Definition acmeFailsEnv : Env :=
  mkEnv false (fun _ => x00) (fun _ => false) (fun _ => false)
        false false (Some "rejected") false false false false.

(** The responder server cannot be created. *)
Definition responderFailsEnv : Env :=
  mkEnv false (fun _ => x00) (fun _ => false) (fun _ => false)
        false true None false false true false.

(** ** The store *)

Module storage.

(** Modelled from the spec: package [storage] is not among the sources.  The
    specification describes the store as a map from correlation ids to
    buckets, each with its records and an optional auth token. *)
Record Bucket := mkBucket {
  records : list string;
  authToken : option string
}.

(** Modelled from the spec: the store owns the buckets and the eviction
    duration it was constructed with. *)
Record Store := mkStore {
  buckets : gmap string Bucket;
  evictionDuration : time.Duration
}.

(** Modelled from the spec: a new store has no bucket. *)
Definition New (evictionTTL : time.Duration) : Store := mkStore ∅ evictionTTL.

(** Modelled from the spec: [registerId(id, token)] pre-creates a bucket with
    a fixed id and an optional token; it is idempotent. *)
Definition registerId (id : string) (token : option string) (s : Store) : Store :=
  match buckets s !! id with
  | Some _ => s
  | None => mkStore (<[id := mkBucket [] token]> (buckets s)) (evictionDuration s)
  end.

(** Modelled from the spec: [SetID(id)], the call of [main], takes the id
    alone: it is [registerId] without a token ([main] calls the record it
    creates unencrypted). *)
Definition SetID (id : string) (s : Store) : Store := registerId id None s.

End storage.

(** The effect of one call of [main] on the stores of the process; a
    [SetID] that reported an error is taken to have done nothing. *)
Definition applyStore (e : Event) (h : gmap ref storage.Store)
  : gmap ref storage.Store :=
  match e with
  | StorageNew ttl r => <[r := storage.New ttl]> h
  | StorageSetID r id false =>
      match h !! r with
      | Some s => <[r := storage.SetID id s]> h
      | None => h
      end
  | _ => h
  end.

(** The stores after a sequence of calls. *)
Definition stores (evs : list Event) : gmap ref storage.Store :=
  fold_left (fun h e => applyStore e h) evs ∅.

(** Every bucket is public and empty. *)
Definition allPublic (s : storage.Store) : Prop :=
  forall id b, storage.buckets s !! id = Some b ->
               storage.authToken b = None /\ storage.records b = [].

(** ** Vocabulary of the further properties *)

Definition isSetID (e : Event) : bool :=
  match e with StorageSetID _ _ _ => true | _ => false end.

Definition isACME (e : Event) : bool :=
  match e with NewAutomaticTLS _ _ _ _ _ => true | _ => false end.

(** A call of [gologger.Warning]. *)
Definition isWarning (e : Event) : bool :=
  match e with Gologger LevelWarning _ => true | _ => false end.

(** A call that configures the logger (lines 49-53). *)
Definition configuresLogger (e : Event) : bool :=
  match e with LoggerSetMaxLevel _ | LoggerSetWriter _ => true | _ => false end.

(** The calls of lines 75-80: the global store and the scripting hooks. *)
Definition usesNebula (e : Event) : bool :=
  match e with
  | SetGlobalStorage _ | NebulaRefresh | NebulaAddFunc _ _ _ _ => true
  | _ => false
  end.

(** What line 141 prints. *)
Definition listeningMessage : string :=
  "Listening on DNS, SMTP and HTTP ports" +:+ newline.

(** What line 69 prints for a token. *)
Definition clientTokenMessage (token : string) : string :=
  "Client Token: " +:+ token +:+ newline.

(** The message [main] hands to [gologger.Fatal] after a failed call. *)
Definition fatalMessage (e : Event) : string :=
  match e with
  | RandRead _ _ => "Could not generate token" +:+ newline
  | NewDNSServer _ _ => "Could not create DNS server"
  | NewHTTPServer _ _ => "Could not create HTTP server"
  | NewSMTPServer _ _ => "Could not create SMTP server"
  | NewResponderServer _ _ => "Could not create SMB server"
  | NewSMBServer _ _ => "Could not create SMB server"
  | _ => ""
  end.

(** The server a constructor returned. *)
Definition created (e : Event) : option ref :=
  match e with
  | NewDNSServer _ srv | NewHTTPServer _ srv | NewSMTPServer _ srv
  | NewResponderServer _ srv | NewSMBServer _ srv => srv
  | _ => None
  end.

(** The server a goroutine serves. *)
Definition serverOf (t : Task) : ref :=
  match t with
  | DNSListenAndServe srv | HTTPListenAndServe srv _ | SMTPListenAndServe srv _
  | ResponderListenAndServe srv | SMBListenAndServe srv => srv
  end.

(** The constructor call that matches a goroutine. *)
Definition constructorOf (o : Options) (t : Task) : Event :=
  match t with
  | DNSListenAndServe srv => NewDNSServer o (Some srv)
  | HTTPListenAndServe srv _ => NewHTTPServer o (Some srv)
  | SMTPListenAndServe srv _ => NewSMTPServer o (Some srv)
  | ResponderListenAndServe srv => NewResponderServer o (Some srv)
  | SMBListenAndServe srv => NewSMBServer o (Some srv)
  end.

(** One of the sixteen characters of [hex.hextable]. *)
Definition isHexDigit (c : ascii) : bool :=
  existsb (Ascii.eqb c) (list_ascii_of_string hex.hextable).

Definition allHexDigits (s : string) : bool :=
  forallb isHexDigit (list_ascii_of_string s).

(** [-domain example.com -auth]. *)
Definition authOnlyFlags : Flags :=
  mkFlags false 7 false false false false
          (mkOptions "example.com" "" "0.0.0.0" "" true "" false
                     "https://interact.projectdiscovery.io" false None).

(** [-domain example.com.], with the trailing dot of a zone name. *)
Definition dottedFlags : Flags :=
  mkFlags false 7 false false false false
          (mkOptions "example.com." "" "0.0.0.0" "" false "" false
                     "https://interact.projectdiscovery.io" false None).

(** * Part II: lemmas and theorems *)

(** ** Monad laws, pointwise *)

Lemma bind_assoc {A B C} (m : Proc A) (f : A -> Proc B) (g : B -> Proc C) env w :
  bind (bind m f) g env w = bind m (fun a => bind (f a) g) env w.
Proof. unfold bind. destruct (m env w) as [[a | c] w']; reflexivity. Qed.

Lemma bind_ext {A B} (m : Proc A) (k1 k2 : A -> Proc B) env w :
  (forall a w', k1 a env w' = k2 a env w') ->
  bind m k1 env w = bind m k2 env w.
Proof. intros H. unfold bind. destruct (m env w) as [[a | c] w']; auto. Qed.

Lemma bind_ret_l {A B} (a : A) (k : A -> Proc B) env w :
  bind (ret a) k env w = k a env w.
Proof. reflexivity. Qed.

Lemma main_blocks fl env w : main fl env w = blocks fl env w.
Proof.
  unfold blocks, configure, storeSetup, main, withHostmaster, fst, snd.
  cbv zeta.
  repeat first
    [ reflexivity
    | rewrite bind_ret_l; cbv beta iota zeta
    | rewrite bind_assoc
    | apply bind_ext; intros ].
Qed.

(** ** The trace is write-only

    A process that is built from the operations of the monad never reads or
    rewrites the trace, so it is [framed]. *)

Lemma framed_ret {A} (a : A) : framed (ret a).
Proof.
  intros env [t n]. unfold ret, extend, fresh; cbn. now rewrite app_nil_r.
Qed.

Lemma framed_emit e : framed (emit e).
Proof. intros env [t n]. reflexivity. Qed.

Lemma framed_ask {A} (f : Env -> A) : framed (ask f).
Proof.
  intros env [t n]. unfold ask, extend, fresh; cbn. now rewrite app_nil_r.
Qed.

Lemma framed_alloc : framed alloc.
Proof.
  intros env [t n]. unfold alloc, extend, fresh; cbn. now rewrite app_nil_r.
Qed.

Lemma framed_osExit {A} c : framed (@osExit A c).
Proof.
  intros env [t n]. unfold osExit, extend, fresh; cbn. now rewrite app_nil_r.
Qed.

Lemma framed_bind {A B} (m : Proc A) (k : A -> Proc B) :
  framed m -> (forall a, framed (k a)) -> framed (bind m k).
Proof.
  intros Hm Hk env w. unfold bind.
  rewrite (Hm env w).
  destruct (m env (fresh w)) as [[a | c] [t1 n1]]; cbn [fst snd trace nextRef].
  - rewrite (Hk a env (extend w t1 n1)).
    rewrite (Hk a env (mkWorld t1 n1)).
    unfold fresh, extend; cbn [trace nextRef fst snd].
    now rewrite app_assoc.
  - reflexivity.
Qed.

Lemma framed_if {A} (b : bool) (m1 m2 : Proc A) :
  framed m1 -> framed m2 -> framed (if b then m1 else m2).
Proof. now destruct b. Qed.

Lemma framed_option {A B} (o : option A) (f : A -> Proc B) (m : Proc B) :
  (forall a, framed (f a)) -> framed m ->
  framed (match o with Some a => f a | None => m end).
Proof. destruct o; auto. Qed.

Create HintDb framed.
#[global] Hint Resolve framed_ret framed_emit framed_ask framed_alloc
  framed_osExit framed_if framed_option : framed.
#[global] Hint Extern 1 (framed (bind _ _)) =>
  apply framed_bind; [ | intros ] : framed.
#[global] Hint Extern 1 (framed (if _ then _ else _)) =>
  apply framed_if : framed.
#[global] Hint Extern 1 (framed (match _ with Some _ => _ | None => _ end)) =>
  apply framed_option; [ intros | ] : framed.

Ltac framed_unfold :=
  unfold fatal, warning, construct, randRead, storageNew, storageSetID,
    nebulaAddFunc, newAutomaticTLS.

Lemma framed_startListeners fl o : framed (startListeners fl o).
Proof.
  unfold startListeners; framed_unfold; cbv zeta.
  auto 50 with framed.
Qed.

(** ** The run, block by block *)

Lemma configure_run fl env w :
  configure fl env w =
  if responder fl && smb fl
  then (Exited 1,
        extend w [loggerSetup fl; FmtPrintf conflictMessage] (nextRef w))
  else if needsToken fl && randErr env
  then (Exited 1,
        extend w [loggerSetup fl; RandRead 32 true;
                  Gologger LevelFatal tokenFailure] (nextRef w))
  else (Done (enableAuth fl, configured fl env),
        extend w (configureCalls fl env) (nextRef w)).
Proof.
  unfold configure, configureCalls, configured, needsToken, enableAuth,
    loggerSetup, extend, generatedToken, randomBytes, conflictMessage,
    tokenFailure.
  destruct w as [t n].
  destruct (debug fl), (responder fl && smb fl);
    cbv [bind emit osExit ret trace nextRef];
    try (rewrite <- app_assoc; reflexivity);
    destruct (shouldEnableAuth _ _ _ && _);
    cbv [andb bind randRead ask emit ret fatal osExit trace nextRef];
    try reflexivity;
    destruct (randErr env);
    repeat rewrite <- app_assoc; reflexivity.
Qed.

Lemma storeSetup_run fl ea o env w :
  storeSetup fl ea o env w =
  (Done (setStorage (Some (nextRef w)) o),
   extend w (storeCalls fl ea o (nextRef w) env) (S (nextRef w))).
Proof.
  unfold storeSetup, storeCalls, extend. destruct w as [t n].
  destruct ea, (RootTLD o) eqn:E;
    cbv [bind storageNew alloc emit ret nebulaAddFunc storageSetID ask
         trace nextRef];
    cbn [RootTLD setStorage Token Domain]; rewrite E;
    repeat rewrite <- app_assoc; reflexivity.
Qed.

(** The whole run, block by block. *)
Lemma run_conflict fl env :
  responder fl && smb fl = true ->
  run fl env =
  (Exited 1, mkWorld [loggerSetup fl; FmtPrintf conflictMessage] 0%nat).
Proof.
  intros H. unfold run. rewrite main_blocks. unfold blocks, bind.
  rewrite configure_run, H. reflexivity.
Qed.

Lemma run_tokenFailure fl env :
  responder fl && smb fl = false -> needsToken fl && randErr env = true ->
  run fl env =
  (Exited 1,
   mkWorld [loggerSetup fl; RandRead 32 true; Gologger LevelFatal tokenFailure]
           0%nat).
Proof.
  intros H1 H2. unfold run. rewrite main_blocks. unfold blocks, bind.
  rewrite configure_run, H1, H2. reflexivity.
Qed.

Lemma run_started fl env :
  reachesStore fl env = true ->
  result fl env = listenerResult fl (served fl env) env 1%nat /\
  calls fl env =
    configureCalls fl env
    ++ storeCalls fl (enableAuth fl) (configured fl env) 0%nat env
    ++ listenerCalls fl (served fl env) env 1%nat.
Proof.
  unfold reachesStore. intros H.
  apply andb_true_iff in H as [H1 H2].
  apply negb_true_iff in H1, H2.
  unfold result, calls, run. rewrite main_blocks. unfold blocks, bind.
  rewrite configure_run, H1, H2. cbn [fst snd].
  rewrite storeSetup_run. cbn [extend initialWorld trace nextRef app].
  rewrite framed_startListeners.
  unfold listenerResult, listenerCalls, served, fresh, extend.
  cbn [fst snd trace nextRef]. split; [reflexivity|].
  now rewrite <- app_assoc.
Qed.

Lemma run_stopped fl env :
  reachesStore fl env = false ->
  result fl env = Exited 1 /\
  (calls fl env = [loggerSetup fl; FmtPrintf conflictMessage] \/
   calls fl env = [loggerSetup fl; RandRead 32 true;
                   Gologger LevelFatal tokenFailure]).
Proof.
  unfold reachesStore, result, calls. intros H.
  destruct (responder fl && smb fl) eqn:H1.
  - rewrite (run_conflict fl env H1). auto.
  - cbn in H. apply negb_false_iff in H.
    rewrite (run_tokenFailure fl env H1 H). auto.
Qed.

(** [reachesStore] is what it says: the runs that construct the store. *)
Lemma reachesStore_spec fl env :
  reachesStore fl env = true <->
  exists ttl store, In (StorageNew ttl store) (calls fl env).
Proof.
  split.
  - intros R. destruct (run_started fl env R) as [_ ->].
    exists (evictionTTL (eviction fl)), 0%nat.
    apply in_or_app. right. apply in_or_app. left. now left.
  - intros (ttl & store & H). destruct (reachesStore fl env) eqn:R; [reflexivity|].
    destruct (run_stopped fl env R) as [_ [Hc | Hc]]; rewrite Hc in H;
      unfold loggerSetup in H; destruct (debug fl); cbn [In] in H;
      repeat destruct H as [H | H]; try discriminate H; contradiction.
Qed.

(** ** Executing the listener block

    The block branches on ten booleans; [listeners_exec] unfolds it and
    splits on them in program order, so that a path that has exited is not
    split any further. *)

Ltac listeners_red :=
  cbv beta iota zeta delta
    [listenerCalls listenerResult startListeners bind ret emit ask alloc
     osExit fatal warning construct newAutomaticTLS fst snd trace nextRef
     negb app].

Ltac split_on b :=
  match goal with
  | |- context [b] => case_eq b; intros ?E; listeners_red
  | _ => idtac
  end.

Ltac split_on_option b :=
  match goal with
  | |- context [b] => case_eq b; [intros ?err ?E | intros ?E]; listeners_red
  | _ => idtac
  end.

Ltac listeners_exec fl env :=
  listeners_red;
  split_on (dnsErr env); split_on (skipacme fl);
  split_on (acmeHandle env); split_on_option (acmeErr env);
  split_on (httpErr env); split_on (smtpErr env);
  split_on (responder fl); split_on (responderErr env);
  split_on (smb fl); split_on (smbErr env).

Lemma listenerCalls_kind fl o env n :
  Forall (fun e => listenerEvent e = true) (listenerCalls fl o env n).
Proof.
  listeners_exec fl env; repeat constructor.
Qed.

(** ** Arithmetic of the eviction duration *)

Lemma wrap64_congr a b :
  a mod 2 ^ 64 = b mod 2 ^ 64 -> time.wrap64 a = time.wrap64 b.
Proof.
  intros H. unfold time.wrap64.
  rewrite <- (Zplus_mod_idemp_l a), <- (Zplus_mod_idemp_l b), H. reflexivity.
Qed.

Lemma wrap64_small z : - 2 ^ 63 <= z < 2 ^ 63 -> time.wrap64 z = z.
Proof. intros H. unfold time.wrap64. rewrite Z.mod_small; lia. Qed.

Lemma wrap64_range z : - 2 ^ 63 <= time.wrap64 z < 2 ^ 63.
Proof.
  unfold time.wrap64.
  pose proof (Z.mod_pos_bound (z + 2 ^ 63) (2 ^ 64) ltac:(lia)). lia.
Qed.

Lemma wrap64_eq z : exists k, time.wrap64 z = z + k * 2 ^ 64.
Proof.
  exists (- ((z + 2 ^ 63) / 2 ^ 64)). unfold time.wrap64.
  pose proof (Z.div_mod (z + 2 ^ 63) (2 ^ 64) ltac:(lia)). lia.
Qed.

(** The two multiplications of line 72 wrap like a single one. *)
Lemma evictionTTL_wrap n :
  evictionTTL n = time.wrap64 (n * (24 * time.Hour)).
Proof.
  unfold evictionTTL, time.mul, time.ofInt.
  apply wrap64_congr.
  destruct (wrap64_eq n) as [k1 E1].
  destruct (wrap64_eq (time.wrap64 n * time.Hour)) as [k2 E2].
  rewrite E2, E1.
  replace ((n + k1 * 2 ^ 64) * time.Hour + k2 * 2 ^ 64) with
    (n * time.Hour + (k1 * time.Hour + k2) * 2 ^ 64) by ring.
  replace ((n * time.Hour + (k1 * time.Hour + k2) * 2 ^ 64) * 24) with
    (n * (24 * time.Hour) + ((k1 * time.Hour + k2) * 24) * 2 ^ 64) by ring.
  apply Z.mod_add. lia.
Qed.

(** The product is exact for the evictions of up to 106751 days, and for
    no other. *)
Lemma wrap64_days n :
  time.wrap64 (n * (24 * time.Hour)) = n * (24 * time.Hour) <->
  -106751 <= n <= 106751.
Proof.
  change (24 * time.Hour) with 86400000000000. split.
  - intros H. pose proof (wrap64_range (n * 86400000000000)) as B.
    rewrite H in B. change (2 ^ 63) with 9223372036854775808 in B. lia.
  - intros H. apply wrap64_small.
    change (2 ^ 63) with 9223372036854775808. lia.
Qed.

(** ** [hex.EncodeToString] loses nothing *)

Lemma hex_decode_byte b s :
  hex.DecodeString (hex.encodeByte b +:+ s) =
  match hex.DecodeString s with
  | Some bs => Some (b :: bs)
  | None => None
  end.
Proof. destruct b; reflexivity. Qed.

Lemma hex_decode_encode bs :
  hex.DecodeString (hex.EncodeToString bs) = Some bs.
Proof.
  induction bs as [| b bs IH]; [reflexivity|].
  cbn [hex.EncodeToString]. now rewrite hex_decode_byte, IH.
Qed.

Lemma hex_encode_inj bs1 bs2 :
  hex.EncodeToString bs1 = hex.EncodeToString bs2 -> bs1 = bs2.
Proof.
  intros H. apply (f_equal hex.DecodeString) in H.
  rewrite !hex_decode_encode in H. now injection H.
Qed.

Lemma hex_encode_length bs :
  String.length (hex.EncodeToString bs) = (2 * List.length bs)%nat.
Proof.
  induction bs as [| b bs IH]; [reflexivity|].
  cbn [hex.EncodeToString List.length]. unfold hex.encodeByte. cbv zeta.
  change (String ?a (String ?b "") +:+ ?s) with (String a (String b s)).
  cbn [String.length]. rewrite IH. lia.
Qed.

Lemma randomBytes_length env : List.length (randomBytes env) = 32%nat.
Proof. unfold randomBytes. now rewrite length_map, length_seq. Qed.

Lemma generatedToken_length env : String.length (generatedToken env) = 64%nat.
Proof. unfold generatedToken. now rewrite hex_encode_length, randomBytes_length. Qed.

(** ** Facts about the listener block *)

Ltac event_inv :=
  repeat match goal with
         | H : _ \/ _ |- _ => destruct H
         | H : False |- _ => destruct H
         | H : @eq Event ?x ?y |- _ =>
             first [ subst x | subst y | revert H; intros [=] ]
         | H : @eq bool true false |- _ => discriminate H
         | H : @eq bool false true |- _ => discriminate H
         end.

(** [listeners_cases]: one goal per path of the listener block, with the
    calls and the result of that path as equations [EL] and [ER]. *)
Ltac listeners_cases fl o env n L R EL ER :=
  remember (listenerCalls fl o env n) as L eqn:EL;
  remember (listenerResult fl o env n) as R eqn:ER;
  revert EL ER; listeners_exec fl env; intros EL ER.

Ltac member H EL := rewrite EL in H; cbn [In] in H; event_inv; subst.

Lemma listeners_acme fl o env n email domains cb tls err :
  In (NewAutomaticTLS email domains cb tls err) (listenerCalls fl o env n) ->
  email = Hostmaster o /\ domains = certDomains o /\ cb = SetTxtRecordOf n /\
  err = acmeErr env /\ skipacme fl = false /\
  (acmeHandle env = false -> tls = None) /\
  exists post,
    listenerCalls fl o env n =
    [NewDNSServer o (Some n); Go (DNSListenAndServe n);
     NewAutomaticTLS email domains cb tls err] ++ post.
Proof.
  listeners_cases fl o env n L R EL ER; intros H; member H EL.
  all: repeat split; try congruence; eexists; reflexivity.
Qed.

Lemma listeners_acme_failure fl o env n email domains cb tls err :
  In (NewAutomaticTLS email domains cb tls (Some err)) (listenerCalls fl o env n) ->
  (exists srv post,
     listenerCalls fl o env n =
     [NewDNSServer o (Some n); Go (DNSListenAndServe n);
      NewAutomaticTLS email domains cb tls (Some err);
      Gologger LevelWarning (acmeWarning err);
      Gologger LevelWarning httpsDisabled;
      NewHTTPServer o srv] ++ post) /\
  (httpErr env = false -> smtpErr env = false ->
   exists h s,
     In (Go (HTTPListenAndServe h tls)) (listenerCalls fl o env n) /\
     In (Go (SMTPListenAndServe s tls)) (listenerCalls fl o env n)) /\
  (listenerResult fl o env n = Done tt \/
   httpErr env = true \/ smtpErr env = true \/
   (responder fl = true /\ responderErr env = true) \/
   (smb fl = true /\ smbErr env = true)).
Proof.
  listeners_cases fl o env n L R EL ER; intros H; member H EL.
  all: split; [ do 2 eexists; reflexivity | ].
  all: split; [ intros; try discriminate; do 2 eexists; cbn [In]; eauto 20 | ].
  all: auto 10.
Qed.

Lemma In_kind (P : Event -> bool) x l :
  In x l -> P x = true -> In x (List.filter P l).
Proof. intros. apply filter_In. auto. Qed.

Lemma steps_app l1 l2 : steps (l1 ++ l2) = steps l1 ++ steps l2.
Proof.
  induction l1 as [| e l1 IH]; [reflexivity|].
  cbn [app steps]. destruct (step e); cbn [app]; now rewrite IH.
Qed.

Lemma listeners_steps fl o env n :
  (exists k, listenerPlan fl = steps (listenerCalls fl o env n) ++ k) /\
  (listenerResult fl o env n = Done tt ->
   steps (listenerCalls fl o env n) = listenerPlan fl).
Proof.
  unfold listenerPlan.
  listeners_cases fl o env n L R EL ER; subst L R;
    cbv [steps step app]; (split; [eexists; reflexivity | ]);
    first [ reflexivity | discriminate 1 ].
Qed.

Lemma listeners_options fl o env n e o' :
  In e (listenerCalls fl o env n) -> serverOptions e = Some o' -> o' = o.
Proof.
  listeners_cases fl o env n L R EL ER; intros H; member H EL;
    cbn [serverOptions]; congruence.
Qed.

Lemma listeners_tls fl o env n h a :
  In (Go (HTTPListenAndServe h a)) (listenerCalls fl o env n) ->
  (skipacme fl = true -> a = None) /\
  (forall s b, In (Go (SMTPListenAndServe s b)) (listenerCalls fl o env n) ->
               a = b) /\
  (forall email domains cb tls err,
     In (NewAutomaticTLS email domains cb tls err) (listenerCalls fl o env n) ->
     a = tls).
Proof.
  listeners_cases fl o env n L R EL ER; intros H; member H EL.
  all: split; [ congruence | ].
  all: split; intros; cbn [In] in *; event_inv; congruence.
Qed.

Lemma listenerResult_eq fl o env n :
  listenerResult fl o env n =
  if dnsErr env || httpErr env || smtpErr env
     || (responder fl && responderErr env) || (smb fl && smbErr env)
  then Exited 1 else Done tt.
Proof.
  listeners_cases fl o env n L R EL ER; subst R;
    rewrite ?orb_true_r; reflexivity.
Qed.

Lemma listeners_outcome_rev fl o env n :
  (listenerResult fl o env n = Done tt /\
   Forall (fun e => failure e = false) (listenerCalls fl o env n)) \/
  (listenerResult fl o env n = Exited 1 /\
   exists e msg rest,
     rev (listenerCalls fl o env n) = Gologger LevelFatal msg :: e :: rest /\
     failure e = true /\ Forall (fun e => failure e = false) rest).
Proof.
  listeners_cases fl o env n L R EL ER; subst L R;
    first
      [ left; split; [reflexivity | repeat constructor]
      | right; split; [reflexivity | ];
        do 3 eexists; split; [cbn [rev app]; reflexivity | ];
        split; [reflexivity | repeat constructor] ].
Qed.

Lemma rev_two {A} (l rest : list A) a b :
  rev l = a :: b :: rest -> l = rev rest ++ [b; a].
Proof.
  intros H. apply (f_equal (@rev A)) in H. rewrite rev_involutive in H.
  rewrite H. cbn [rev]. now rewrite <- app_assoc.
Qed.

Lemma listeners_outcome fl o env n :
  (listenerResult fl o env n = Done tt /\
   Forall (fun e => failure e = false) (listenerCalls fl o env n)) \/
  (listenerResult fl o env n = Exited 1 /\
   exists pre e msg,
     listenerCalls fl o env n = pre ++ [e; Gologger LevelFatal msg] /\
     failure e = true /\ Forall (fun e => failure e = false) pre).
Proof.
  destruct (listeners_outcome_rev fl o env n)
    as [H | [HR (e & msg & rest & Hrev & He & Hrest)]]; [now left | right].
  split; [exact HR|]. exists (rev rest), e, msg.
  split; [now apply rev_two | split; [exact He|]].
  now apply List.Forall_rev.
Qed.

(** ** Facts about the configuration and store blocks *)

Lemma withHostmaster_fields o :
  Domain (withHostmaster o) = Domain o /\ Token (withHostmaster o) = Token o /\
  Template (withHostmaster o) = Template o /\
  RootTLD (withHostmaster o) = RootTLD o /\
  Storage (withHostmaster o) = Storage o.
Proof. unfold withHostmaster. destruct (String.eqb _ _); now cbn. Qed.

Lemma enableAuth_eq fl :
  enableAuth fl = shouldEnableAuth (options fl) (smb fl) (responder fl).
Proof.
  unfold enableAuth, shouldEnableAuth.
  destruct (withHostmaster_fields (options fl)) as (_ & -> & -> & -> & _).
  reflexivity.
Qed.

Lemma needsToken_eq fl :
  needsToken fl = enableAuth fl && String.eqb (Token (options fl)) "".
Proof.
  unfold needsToken.
  destruct (withHostmaster_fields (options fl)) as (_ & -> & _). reflexivity.
Qed.

Lemma configured_fields fl env :
  Domain (configured fl env) = Domain (options fl) /\
  Hostmaster (configured fl env) = Hostmaster (withHostmaster (options fl)) /\
  RootTLD (configured fl env) = RootTLD (options fl) /\
  Token (configured fl env) =
    (if needsToken fl then generatedToken env else Token (options fl)).
Proof.
  unfold configured.
  destruct (withHostmaster_fields (options fl)) as (HD & HT & _ & HR & _).
  destruct (needsToken fl); cbn; auto.
Qed.

Ltac configure_inv H :=
  unfold configureCalls, loggerSetup in H;
  repeat match type of H with
         | context [if ?b then _ else _] => destruct b
         end;
  cbn [In app] in H; event_inv.

Ltac store_inv H :=
  unfold storeCalls in H;
  repeat match type of H with
         | context [if ?b then _ else _] => destruct b
         end;
  cbn [In app] in H; event_inv.

Lemma filter_none {A} (P : A -> bool) l :
  Forall (fun x => P x = false) l -> List.filter P l = [].
Proof.
  induction 1 as [| x l Hx _ IH]; [reflexivity|].
  cbn [List.filter]. now rewrite Hx.
Qed.

Lemma listenerCalls_filter (P : Event -> bool) fl o env n :
  (forall e, listenerEvent e = true -> P e = false) ->
  List.filter P (listenerCalls fl o env n) = [].
Proof.
  intros HP. apply filter_none.
  eapply List.Forall_impl; [exact HP | apply listenerCalls_kind].
Qed.

Lemma configureCalls_filter (P : Event -> bool) fl env :
  (forall l, P (LoggerSetMaxLevel l) = false) ->
  (forall w, P (LoggerSetWriter w) = false) ->
  (forall s, P (LogPrintf s) = false) ->
  List.filter P (configureCalls fl env) =
  if needsToken fl then List.filter P [RandRead 32 false] else [].
Proof.
  intros H1 H2 H3. unfold configureCalls, loggerSetup.
  destruct (debug fl), (needsToken fl); cbn [List.filter];
    rewrite ?H1, ?H2, ?H3; reflexivity.
Qed.

Lemma storeCalls_filter (P : Event -> bool) fl ea o store env :
  (forall s, P (SetGlobalStorage s) = false) ->
  P NebulaRefresh = false ->
  (forall n m s f, P (NebulaAddFunc n m s f) = false) ->
  (forall s i f, P (StorageSetID s i f) = false) ->
  List.filter P (storeCalls fl ea o store env) =
  List.filter P [StorageNew (evictionTTL (eviction fl)) store].
Proof.
  intros H1 H2 H3 H4. unfold storeCalls.
  destruct ea, (RootTLD o); cbn [List.filter app];
    rewrite ?H1, ?H2, ?H3, ?H4; reflexivity.
Qed.

Lemma calls_started fl env :
  reachesStore fl env = true ->
  calls fl env =
    configureCalls fl env
    ++ storeCalls fl (enableAuth fl) (configured fl env) 0%nat env
    ++ listenerCalls fl (served fl env) env 1%nat.
Proof. intros H. now destruct (run_started fl env H). Qed.

Lemma result_started fl env :
  reachesStore fl env = true ->
  result fl env = listenerResult fl (served fl env) env 1%nat.
Proof. intros H. now destruct (run_started fl env H). Qed.

(** Where a listener-block call of a run comes from. *)
Lemma in_listenerCalls fl env e :
  In e (calls fl env) -> touchesListener e = true ->
  reachesStore fl env = true /\
  In e (listenerCalls fl (served fl env) env 1%nat).
Proof.
  intros H He. destruct (reachesStore fl env) eqn:R.
  - split; [reflexivity|]. rewrite (calls_started fl env R) in H.
    apply in_app_or in H as [H | H];
      [configure_inv H; cbn in He; discriminate He|].
    apply in_app_or in H as [H | H];
      [store_inv H; cbn in He; discriminate He|].
    exact H.
  - destruct (run_stopped fl env R) as [_ [Hc | Hc]]; rewrite Hc in H;
      unfold loggerSetup in H; destruct (debug fl);
      cbn [In] in H; event_inv; cbn in He; discriminate He.
Qed.

Lemma filter_calls (P : Event -> bool) fl env :
  (forall e, listenerEvent e = true -> P e = false) ->
  (forall l, P (LoggerSetMaxLevel l) = false) ->
  (forall w, P (LoggerSetWriter w) = false) ->
  (forall s, P (SetGlobalStorage s) = false) ->
  P NebulaRefresh = false ->
  (forall n m s f, P (NebulaAddFunc n m s f) = false) ->
  (forall s i f, P (StorageSetID s i f) = false) ->
  reachesStore fl env = true ->
  List.filter P (calls fl env) =
  (if needsToken fl then List.filter P [RandRead 32 false] else [])
  ++ List.filter P [StorageNew (evictionTTL (eviction fl)) 0%nat].
Proof.
  intros HL H1 H2 H3 H4 H5 H6 R.
  rewrite (calls_started fl env R), !List.filter_app.
  rewrite listenerCalls_filter, app_nil_r by exact HL.
  rewrite configureCalls_filter by auto.
  now rewrite storeCalls_filter.
Qed.


(** ** When authentication is enabled *)

Lemma shouldEnableAuth_true (options : Options) (smb responder : bool) :
  shouldEnableAuth options smb responder = true <->
  Template options = true \/ smb = true \/ responder = true \/
  RootTLD options = true \/ Token options <> "".
Proof.
  unfold shouldEnableAuth, nonEmpty.
  rewrite !orb_true_iff, negb_true_iff, String.eqb_neq. tauto.
Qed.

Lemma enableAuth_true fl :
  enableAuth fl = true <->
  Template (options fl) = true \/ smb fl = true \/ responder fl = true \/
  RootTLD (options fl) = true \/ Token (options fl) <> "".
Proof. rewrite enableAuth_eq. apply shouldEnableAuth_true. Qed.

(** ** The store after the calls of [main] *)

Lemma allPublic_New ttl : allPublic (storage.New ttl).
Proof. intros id b H. cbn in H. now rewrite lookup_empty in H. Qed.

Lemma allPublic_SetID id s : allPublic s -> allPublic (storage.SetID id s).
Proof.
  intros Hs id' b. unfold storage.SetID, storage.registerId.
  destruct (storage.buckets s !! id) eqn:E; [apply Hs|].
  cbn [storage.buckets]. intros H.
  apply lookup_insert_Some in H as [[_ <-] | [_ H]]; [now cbn | eauto].
Qed.

Lemma SetID_registered id s :
  is_Some (storage.buckets (storage.SetID id s) !! id).
Proof.
  unfold storage.SetID, storage.registerId.
  destruct (storage.buckets s !! id) eqn:E; [now rewrite E|].
  cbn [storage.buckets]. rewrite lookup_insert_eq. eauto.
Qed.

Lemma stores_snoc evs e : stores (evs ++ [e]) = applyStore e (stores evs).
Proof. unfold stores. now rewrite fold_left_app. Qed.

Lemma applyStore_public e h :
  (forall r s, h !! r = Some s -> allPublic s) ->
  forall r s, applyStore e h !! r = Some s -> allPublic s.
Proof.
  intros Hh r s. destruct e; cbn [applyStore]; try apply Hh.
  - intros H. apply lookup_insert_Some in H as [[_ <-] | [_ H]];
      [apply allPublic_New | eauto].
  - destruct failed; [apply Hh|].
    destruct (h !! store) as [s0|] eqn:E; [|apply Hh].
    intros H. apply lookup_insert_Some in H as [[_ <-] | [_ H]];
      [apply allPublic_SetID; eauto | eauto].
Qed.

Lemma stores_public evs r s : stores evs !! r = Some s -> allPublic s.
Proof.
  revert r s. induction evs as [| e evs IH] using rev_ind.
  - intros r s H. cbn in H. now rewrite lookup_empty in H.
  - intros r s. rewrite stores_snoc. now apply applyStore_public.
Qed.

Lemma applyStore_keeps e h r : is_Some (h !! r) -> is_Some (applyStore e h !! r).
Proof.
  intros H. destruct e; cbn [applyStore]; try exact H.
  - destruct (decide (store = r)) as [-> | N];
      [rewrite lookup_insert_eq; eauto | now rewrite lookup_insert_ne].
  - destruct failed; [exact H|].
    destruct (h !! store) eqn:E; [|exact H].
    destruct (decide (store = r)) as [-> | N];
      [rewrite lookup_insert_eq; eauto | now rewrite lookup_insert_ne].
Qed.

Lemma stores_created evs ttl r :
  In (StorageNew ttl r) evs -> is_Some (stores evs !! r).
Proof.
  induction evs as [| e evs IH] using rev_ind; [intros []|].
  intros H. rewrite stores_snoc. apply in_app_or in H as [H | [-> | []]].
  - apply applyStore_keeps. auto.
  - cbn [applyStore]. rewrite lookup_insert_eq. eauto.
Qed.

(** After a successful [SetID] on an existing store the id has a public,
    empty bucket. *)
Lemma stores_SetID evs ttl r id :
  In (StorageNew ttl r) evs ->
  exists s b,
    stores (evs ++ [StorageSetID r id false]) !! r = Some s /\
    storage.buckets s !! id = Some b /\
    storage.authToken b = None /\ storage.records b = [].
Proof.
  intros H. rewrite stores_snoc. cbn [applyStore].
  destruct (stores_created evs ttl r H) as [s0 E]. rewrite E.
  destruct (SetID_registered id s0) as [b Hb].
  exists (storage.SetID id s0), b.
  split; [apply lookup_insert_eq|]. split; [exact Hb|].
  eapply allPublic_SetID; [|exact Hb]. eapply stores_public; exact E.
Qed.

(** ** The steps of the first two blocks *)

Lemma steps_configureCalls fl env : steps (configureCalls fl env) = [].
Proof.
  unfold configureCalls, loggerSetup.
  now destruct (debug fl), (needsToken fl).
Qed.

Lemma steps_storeCalls fl ea o store env :
  steps (storeCalls fl ea o store env) = [StoreCreated].
Proof. unfold storeCalls. now destruct ea, (RootTLD o). Qed.

Lemma serverOptions_touches e o :
  serverOptions e = Some o -> touchesListener e = true.
Proof. now destruct e. Qed.

(** ** How a run ends *)

Lemma failure_last (P pre post : list Event) f g e :
  P ++ [f; g] = pre ++ e :: post ->
  Forall (fun x => failure x = false) P ->
  failure g = false -> failure e = true ->
  pre = P /\ e = f /\ post = [g].
Proof.
  intros H HP Hg He. revert pre H.
  induction HP as [| p P Hp _ IH]; intros pre H.
  - destruct pre as [| x [| y pre]]; cbn in H.
    + injection H as <- <-. auto.
    + injection H as _ <- _. congruence.
    + injection H as _ _ H. now destruct pre.
  - destruct pre as [| x pre]; cbn in H.
    + injection H as <- _. congruence.
    + injection H as <- H. destruct (IH pre H) as (-> & -> & ->). auto.
Qed.

Lemma configureCalls_nofail fl env :
  Forall (fun e => failure e = false) (configureCalls fl env).
Proof.
  unfold configureCalls, loggerSetup.
  destruct (debug fl), (needsToken fl); repeat constructor.
Qed.

Lemma storeCalls_nofail fl ea o store env :
  Forall (fun e => failure e = false) (storeCalls fl ea o store env).
Proof. unfold storeCalls. destruct ea, (RootTLD o); repeat constructor. Qed.

(** A run completes, or it stops on the two companions, or it stops right
    after a failure. *)
Lemma run_outcome fl env :
  (result fl env = Done tt /\
   Forall (fun e => failure e = false) (calls fl env)) \/
  (result fl env = Exited 1 /\ responder fl && smb fl = true /\
   calls fl env = [loggerSetup fl; FmtPrintf conflictMessage]) \/
  (result fl env = Exited 1 /\
   exists pre e msg,
     calls fl env = pre ++ [e; Gologger LevelFatal msg] /\
     failure e = true /\ Forall (fun e => failure e = false) pre).
Proof.
  destruct (reachesStore fl env) eqn:R.
  - rewrite (calls_started fl env R), (result_started fl env R).
    destruct (listeners_outcome fl (served fl env) env 1%nat)
      as [[HR HF] | [HR (pre & e & msg & HL & He & HF)]].
    + left. split; [exact HR|].
      apply Forall_app; split; [apply configureCalls_nofail|].
      apply Forall_app; split; [apply storeCalls_nofail | exact HF].
    + right; right. split; [exact HR|].
      exists (configureCalls fl env
              ++ storeCalls fl (enableAuth fl) (configured fl env) 0%nat env
              ++ pre), e, msg.
      split; [rewrite HL; now rewrite <- !app_assoc|]. split; [exact He|].
      apply Forall_app; split; [apply configureCalls_nofail|].
      apply Forall_app; split; [apply storeCalls_nofail | exact HF].
  - right. unfold reachesStore in R.
    destruct (responder fl && smb fl) eqn:C.
    + left. unfold result, calls. rewrite (run_conflict fl env C). auto.
    + right. cbn in R. apply negb_false_iff in R.
      unfold result, calls. rewrite (run_tokenFailure fl env C R).
      split; [reflexivity|].
      exists [loggerSetup fl], (RandRead 32 true), tokenFailure.
      repeat split. unfold loggerSetup.
      destruct (debug fl); repeat constructor.
Qed.

(** Whether a run completes is decided by the fatal errors alone. *)
Lemma result_eq fl env :
  result fl env =
  if (responder fl && smb fl) || (needsToken fl && randErr env)
     || dnsErr env || httpErr env || smtpErr env
     || (responder fl && responderErr env) || (smb fl && smbErr env)
  then Exited 1 else Done tt.
Proof.
  destruct (reachesStore fl env) eqn:R.
  - rewrite (result_started fl env R), listenerResult_eq.
    unfold reachesStore in R. apply andb_true_iff in R as [R1 R2].
    apply negb_true_iff in R1, R2. rewrite R1, R2. reflexivity.
  - destruct (run_stopped fl env R) as [-> _].
    unfold reachesStore in R. apply andb_false_iff in R as [R | R];
      apply negb_false_iff in R; rewrite R; [reflexivity|].
    now rewrite orb_true_r.
Qed.

(** * The claims *)

(** C1: authentication is enabled if and only if template upload is enabled,
    the SMB companion is active, the responder companion is active, root-TLD
    mode is active, or a non-empty token was supplied.  The first part is
    about [shouldEnableAuth] itself, the second about the value [main]
    computes with it at line 61. *)
Theorem shouldEnableAuth_iff :
  (forall (options : Options) (smb responder : bool),
     shouldEnableAuth options smb responder = true <->
     Template options = true \/ smb = true \/ responder = true \/
     RootTLD options = true \/ Token options <> "") /\
  (forall fl : Flags,
     enableAuth fl = true <->
     Template (options fl) = true \/ smb fl = true \/ responder fl = true \/
     RootTLD (options fl) = true \/ Token (options fl) <> "").
Proof.
  split.
  - exact shouldEnableAuth_true.
  - exact enableAuth_true.
Qed.



(** C3, as it stands, fails where the multiplication overflows:
    [-eviction 106752] gives the store a negative duration, not 106752 days. *)
Lemma eviction_overflow_counterexample :
  ~ storeKeepsDays centuriesFlags quietEnv.
Proof.
  unfold storeKeepsDays. intros [store H].
  vm_compute in H. discriminate H.
Qed.

(** C3, amended: in every run that gets to line 72, exactly one call of
    startup takes an eviction duration, the construction of the store; for
    an eviction of [N] days its duration is the product of [N] and 24 hours
    wrapped to 64 bits, which is [N] times 24 hours exactly when
    -106751 <= N <= 106751. *)
Theorem store_eviction_fixed fl env :
  reachesStore fl env = true ->
  List.filter constructsStore (calls fl env) =
    [StorageNew (time.wrap64 (eviction fl * (24 * time.Hour))) 0%nat] /\
  (time.wrap64 (eviction fl * (24 * time.Hour)) = eviction fl * (24 * time.Hour)
   <-> -106751 <= eviction fl <= 106751).
Proof.
  intros R. split; [|apply wrap64_days].
  rewrite filter_calls by (auto; now intros []).
  rewrite evictionTTL_wrap.
  now destruct (needsToken fl).
Qed.

Lemma store_eviction_fixed_witness :
  reachesStore defaultFlags quietEnv = true /\
  List.filter constructsStore (calls defaultFlags quietEnv) =
    [StorageNew (7 * (24 * time.Hour)) 0%nat].
Proof.
  split; [reflexivity|].
  exact (proj1 (store_eviction_fixed defaultFlags quietEnv eq_refl)).
Defined.

(** C5: in every run in which [acme.NewAutomaticTLS] returns an error, the
    process goes on: the error is logged in two warnings and the next call
    creates the HTTP server; when the HTTP and SMTP servers can be created,
    both are started with the handle that came with the error, which is nil
    when the package returns none; and the run completes unless one of the
    later constructors fails. *)
Theorem acme_failure_degrades fl env email domains cb tls err :
  In (NewAutomaticTLS email domains cb tls (Some err)) (calls fl env) ->
  (exists pre o srv post,
     calls fl env =
     pre ++ [NewAutomaticTLS email domains cb tls (Some err);
             Gologger LevelWarning (acmeWarning err);
             Gologger LevelWarning httpsDisabled;
             NewHTTPServer o srv] ++ post) /\
  (httpErr env = false -> smtpErr env = false ->
   exists h s,
     In (Go (HTTPListenAndServe h tls)) (calls fl env) /\
     In (Go (SMTPListenAndServe s tls)) (calls fl env)) /\
  (acmeHandle env = false -> tls = None) /\
  (result fl env = Done tt \/
   httpErr env = true \/ smtpErr env = true \/
   (responder fl = true /\ responderErr env = true) \/
   (smb fl = true /\ smbErr env = true)).
Proof.
  intros H. apply in_listenerCalls in H as [R H]; [|reflexivity].
  pose proof (listeners_acme _ _ _ _ _ _ _ _ _ H)
    as (_ & _ & _ & _ & _ & Hnil & _).
  apply listeners_acme_failure in H as ((srv & post & HL) & Hserve & Hres).
  rewrite (calls_started fl env R), (result_started fl env R).
  repeat split.
  - exists (configureCalls fl env
            ++ storeCalls fl (enableAuth fl) (configured fl env) 0%nat env
            ++ [NewDNSServer (served fl env) (Some 1%nat);
                Go (DNSListenAndServe 1%nat)]),
      (served fl env), srv, post.
    rewrite HL. now rewrite <- !app_assoc.
  - intros Hh Hs. destruct (Hserve Hh Hs) as (h & s & H1 & H2).
    exists h, s. split; apply in_or_app; right; apply in_or_app; now right.
  - exact Hnil.
  - exact Hres.
Qed.

Lemma acme_failure_degrades_witness :
  In (NewAutomaticTLS "admin@" "*.," (SetTxtRecordOf 1%nat) None
                      (Some "rejected"))
     (calls defaultFlags acmeFailsEnv) /\
  (exists h s,
     In (Go (HTTPListenAndServe h None)) (calls defaultFlags acmeFailsEnv) /\
     In (Go (SMTPListenAndServe s None)) (calls defaultFlags acmeFailsEnv)).
Proof.
  assert (H : In (NewAutomaticTLS "admin@" "*.," (SetTxtRecordOf 1%nat) None
                                  (Some "rejected"))
                 (calls defaultFlags acmeFailsEnv)).
  { vm_compute. repeat (first [left; reflexivity | right]). }
  split; [exact H|].
  destruct (acme_failure_degrades _ _ _ _ _ _ _ H) as (_ & Hs & _).
  exact (Hs eq_refl eq_refl).
Defined.

(** C6: when root-TLD mode is active and startup gets to line 72, it calls
    [SetID] on the store it has just created with the configured domain as
    the id, and no server has been created and no listener started before
    that call; when the call reports no error, the store holds a bucket
    under that id which carries no auth token (and no record yet). *)
Theorem rootTLD_singleton fl env :
  RootTLD (options fl) = true -> reachesStore fl env = true ->
  exists pre post ttl store,
    calls fl env =
      pre ++ StorageSetID store (Domain (options fl))
                          (setIDErr env (Domain (options fl))) :: post /\
    In (StorageNew ttl store) pre /\
    Forall (fun e => touchesListener e = false) pre /\
    (setIDErr env (Domain (options fl)) = false ->
     exists s b,
       stores (pre ++ [StorageSetID store (Domain (options fl)) false])
         !! store = Some s /\
       storage.buckets s !! Domain (options fl) = Some b /\
       storage.authToken b = None /\ storage.records b = []).
Proof.
  intros HR R.
  destruct (configured_fields fl env) as (HD & _ & HR' & _).
  assert (Ha : enableAuth fl = true).
  { apply enableAuth_true. auto 10. }
  set (pre := configureCalls fl env
          ++ [StorageNew (evictionTTL (eviction fl)) 0%nat;
              SetGlobalStorage 0%nat; NebulaRefresh;
              NebulaAddFunc "store_info" SetInternalById 0%nat
                            (addFuncErr env "store_info");
              NebulaAddFunc "cleanup_info" CleanupInternalById 0%nat
                            (addFuncErr env "cleanup_info");
              StorageSetID 0%nat (Token (configured fl env))
                           (setIDErr env (Token (configured fl env)))]).
  exists pre, (listenerCalls fl (served fl env) env 1%nat),
    (evictionTTL (eviction fl)), 0%nat.
  assert (Hnew : In (StorageNew (evictionTTL (eviction fl)) 0%nat) pre).
  { apply in_or_app. right. now left. }
  split; [|split; [exact Hnew | split]].
  - rewrite (calls_started fl env R). unfold pre, storeCalls.
    rewrite Ha, HR', HR, HD. rewrite <- !app_assoc. reflexivity.
  - apply Forall_app. split.
    + unfold configureCalls, loggerSetup.
      destruct (debug fl), (needsToken fl); repeat constructor.
    + repeat constructor.
  - intros _. eapply stores_SetID. exact Hnew.
Qed.

Lemma rootTLD_singleton_witness :
  RootTLD (options rootTLDFlags) = true /\
  reachesStore rootTLDFlags quietEnv = true /\
  exists pre post ttl store,
    calls rootTLDFlags quietEnv =
      pre ++ StorageSetID store "example.com" false :: post /\
    In (StorageNew ttl store) pre /\
    Forall (fun e => touchesListener e = false) pre /\
    (false = false ->
     exists s b,
       stores (pre ++ [StorageSetID store "example.com" false])
         !! store = Some s /\
       storage.buckets s !! "example.com" = Some b /\
       storage.authToken b = None /\ storage.records b = []).
Proof.
  split; [reflexivity|]. split; [reflexivity|].
  exact (rootTLD_singleton rootTLDFlags quietEnv eq_refl eq_refl).
Defined.

(** C7, as it stands, fails for the companions: the responder listener is
    started without a certificate handle, while HTTP and SMTP get one. *)
Lemma companion_certificate_counterexample :
  ~ listenersShareCertificate responderFlags quietEnv.
Proof.
  intros [tls H].
  assert (H1 : certificateOf (ResponderListenAndServe 5%nat) = Some tls).
  { apply H; [|discriminate].
    vm_compute. repeat (first [left; reflexivity | right]). }
  discriminate H1.
Qed.

(** C7, amended: the steps a run performs are an initial segment of: store
    created, DNS listener started, ACME coordinator created (unless
    skipped), HTTP listener started, SMTP listener started, responder
    listener started (if requested), SMB listener started (if requested);
    a run that completes performs all of them.  Every server (DNS, HTTP,
    SMTP, responder, SMB) is created with options that hold the one store
    startup constructed.  The HTTP and the SMTP listener are started with
    the same certificate handle, the one [acme.NewAutomaticTLS] returned, nil
    when it was skipped; the responder and SMB listeners take none.  The
    ACME coordinator is created with a callback that sets the TXT record of
    the DNS server whose listener has been started before. *)
Theorem startup_order fl env :
  (exists k, plan fl = steps (calls fl env) ++ k) /\
  (result fl env = Done tt -> steps (calls fl env) = plan fl) /\
  (forall e o,
     In e (calls fl env) -> serverOptions e = Some o ->
     exists ttl store,
       Storage o = Some store /\
       List.filter constructsStore (calls fl env) = [StorageNew ttl store]) /\
  (forall h a,
     In (Go (HTTPListenAndServe h a)) (calls fl env) ->
     (skipacme fl = true -> a = None) /\
     (forall s b, In (Go (SMTPListenAndServe s b)) (calls fl env) -> a = b) /\
     (forall email domains cb tls err,
        In (NewAutomaticTLS email domains cb tls err) (calls fl env) ->
        a = tls)) /\
  (forall email domains cb tls err,
     In (NewAutomaticTLS email domains cb tls err) (calls fl env) ->
     exists pre post o dns,
       calls fl env = pre ++ NewAutomaticTLS email domains cb tls err :: post /\
       cb = SetTxtRecordOf dns /\
       In (NewDNSServer o (Some dns)) pre /\
       In (Go (DNSListenAndServe dns)) pre).
Proof.
  split; [|split; [|split; [|split]]].
  - destruct (reachesStore fl env) eqn:R.
    + rewrite (calls_started fl env R), !steps_app.
      rewrite steps_configureCalls, steps_storeCalls.
      destruct (listeners_steps fl (served fl env) env 1%nat) as [[k Hk] _].
      exists k. unfold plan. rewrite Hk. reflexivity.
    + exists (plan fl).
      destruct (run_stopped fl env R) as [_ [Hc | Hc]]; rewrite Hc;
        unfold loggerSetup; now destruct (debug fl).
  - intros HD. destruct (reachesStore fl env) eqn:R.
    + rewrite (calls_started fl env R), !steps_app.
      rewrite steps_configureCalls, steps_storeCalls.
      rewrite (result_started fl env R) in HD.
      destruct (listeners_steps fl (served fl env) env 1%nat) as [_ ->];
        [reflexivity | exact HD].
    + destruct (run_stopped fl env R) as [Hr _]. congruence.
  - intros e o He Ho.
    apply in_listenerCalls in He as [R He];
      [|eapply serverOptions_touches; exact Ho].
    rewrite (listeners_options _ _ _ _ _ _ He Ho).
    exists (evictionTTL (eviction fl)), 0%nat. split; [reflexivity|].
    rewrite filter_calls by (auto; now intros []).
    now destruct (needsToken fl).
  - intros h a H. apply in_listenerCalls in H as [R H]; [|reflexivity].
    destruct (listeners_tls _ _ _ _ _ _ H) as (H1 & H2 & H3).
    split; [exact H1|]. split.
    + intros s b Hs. apply in_listenerCalls in Hs as [_ Hs]; [|reflexivity].
      eauto.
    + intros email domains cb tls err Hc.
      apply in_listenerCalls in Hc as [_ Hc]; [|reflexivity]. eauto.
  - intros email domains cb tls err H.
    apply in_listenerCalls in H as [R H]; [|reflexivity].
    apply listeners_acme in H as (_ & _ & Hcb & _ & _ & _ & post & HL).
    exists (configureCalls fl env
            ++ storeCalls fl (enableAuth fl) (configured fl env) 0%nat env
            ++ [NewDNSServer (served fl env) (Some 1%nat);
                Go (DNSListenAndServe 1%nat)]),
      post, (served fl env), 1%nat.
    split; [|split; [exact Hcb|]].
    + rewrite (calls_started fl env R), HL. now rewrite <- !app_assoc.
    + split; apply in_or_app; right; apply in_or_app; right; cbn; auto.
Qed.

Lemma startup_order_witness :
  steps (calls responderFlags quietEnv) =
  [StoreCreated; DNSStarted; ACMECreated; HTTPStarted; SMTPStarted;
   ResponderStarted].
Proof.
  exact (proj1 (proj2 (startup_order responderFlags quietEnv)) eq_refl).
Defined.

(** C8, as it stands, fails in its converse: the failure to create the
    responder server aborts startup too, and it is none of the named
    failures. *)
Lemma responder_failure_counterexample :
  ~ abortsOnlyOnNamed responderFlags responderFailsEnv.
Proof.
  intros [H | (e & He & Hn)].
  - vm_compute in H. discriminate H.
  - vm_compute in He. event_inv; cbn in Hn; discriminate Hn.
Qed.

(** C8, amended: a failure to read the random bytes of the token or to create
    the DNS, HTTP, SMTP, responder or SMB server aborts startup at once: the
    only call after it is the fatal log line, and the process exits with
    status 1.  A run that does not complete has either met such a failure
    or was asked for both companions.  No other error decides whether a run
    completes: two environments that agree on these fatal errors (and may
    differ in what ACME, [SetID] and [AddFunc] return) give the same
    result. *)
Theorem fatal_startup_errors fl env :
  (forall pre e post,
     calls fl env = pre ++ e :: post -> failure e = true ->
     result fl env = Exited 1 /\ exists msg, post = [Gologger LevelFatal msg]) /\
  (result fl env = Done tt \/ responder fl && smb fl = true \/
   exists e, In e (calls fl env) /\ failure e = true) /\
  (forall env', sameFatal env env' -> result fl env' = result fl env).
Proof.
  split; [|split].
  - intros pre e post Hc He.
    destruct (run_outcome fl env)
      as [[_ HF] | [(_ & _ & Hl) | (HR & P & f & msg & Hl & Hf & HP)]].
    + rewrite Hc in HF. apply Forall_app in HF as [_ HF].
      apply Forall_cons_iff in HF as [HF _]. congruence.
    + rewrite Hl in Hc. unfold loggerSetup in Hc.
      destruct pre as [| x [| y [| z pre]]]; cbn in Hc;
        destruct (debug fl); inversion Hc; subst; try discriminate He.
      all: now destruct pre.
    + rewrite Hl in Hc.
      destruct (failure_last _ _ _ _ _ _ Hc HP eq_refl He) as (_ & _ & ->).
      split; [exact HR | now exists msg].
  - destruct (run_outcome fl env)
      as [[HR _] | [(_ & C & _) | (_ & P & f & msg & Hl & Hf & _)]]; auto.
    right; right. exists f. split; [|exact Hf].
    rewrite Hl. apply in_or_app. right. now left.
  - intros env' (H1 & H2 & H3 & H4 & H5 & H6).
    rewrite !result_eq. now rewrite H1, H2, H3, H4, H5, H6.
Qed.

Lemma fatal_startup_errors_witness :
  sameFatal quietEnv acmeFailsEnv /\
  result defaultFlags acmeFailsEnv = result defaultFlags quietEnv.
Proof.
  assert (H : sameFatal quietEnv acmeFailsEnv) by (repeat split).
  split; [exact H|].
  exact (proj2 (proj2 (fatal_startup_errors defaultFlags quietEnv)) _ H).
Defined.

(** C9: when both the responder and the smb companion are requested, startup
    prints the error message and exits with status 1; its only calls are the
    logger setup and that message, so no store has been created and no
    server or listener touched. *)
Theorem exclusive_companions fl env :
  responder fl = true -> smb fl = true ->
  result fl env = Exited 1 /\
  calls fl env = [loggerSetup fl; FmtPrintf conflictMessage] /\
  Forall (fun e => constructsStore e = false /\ touchesListener e = false)
         (calls fl env).
Proof.
  intros Hr Hs.
  assert (H : responder fl && smb fl = true) by now rewrite Hr, Hs.
  unfold result, calls. rewrite (run_conflict fl env H). cbn [fst snd trace].
  repeat split. unfold loggerSetup.
  destruct (debug fl); repeat constructor.
Qed.

Lemma exclusive_companions_witness :
  responder conflictFlags = true /\ smb conflictFlags = true /\
  result conflictFlags quietEnv = Exited 1 /\
  calls conflictFlags quietEnv =
    [LoggerSetWriter noopWriter; FmtPrintf conflictMessage].
Proof.
  split; [reflexivity|]. split; [reflexivity|].
  destruct (exclusive_companions conflictFlags quietEnv eq_refl eq_refl)
    as (H1 & H2 & _).
  exact (conj H1 H2).
Defined.

(** C10: the hostmaster [acme.NewAutomaticTLS] is called with is "admin@"
    followed by the configured domain when the hostmaster flag is empty, and
    the hostmaster flag itself when it is not. *)
Theorem hostmaster_default fl env email domains cb tls err :
  In (NewAutomaticTLS email domains cb tls err) (calls fl env) ->
  (Hostmaster (options fl) = "" -> email = "admin@" +:+ Domain (options fl)) /\
  (Hostmaster (options fl) <> "" -> email = Hostmaster (options fl)).
Proof.
  intros H. apply in_listenerCalls in H as [_ H]; [|reflexivity].
  apply listeners_acme in H as (-> & _).
  unfold served. cbn [Hostmaster setStorage].
  destruct (configured_fields fl env) as (_ & -> & _).
  unfold withHostmaster.
  destruct (String.eqb_spec (Hostmaster (options fl)) "") as [E | E].
  - split; [reflexivity | contradiction].
  - split; [contradiction | reflexivity].
Qed.

Lemma hostmaster_default_witness :
  In (NewAutomaticTLS "admin@example.com" "*.example.com,example.com"
                      (SetTxtRecordOf 1%nat) (Some 2%nat) None)
     (calls rootTLDFlags quietEnv) /\
  "admin@example.com" = "admin@" +:+ Domain (options rootTLDFlags).
Proof.
  assert (H : In (NewAutomaticTLS "admin@example.com"
                                  "*.example.com,example.com"
                                  (SetTxtRecordOf 1%nat) (Some 2%nat) None)
                 (calls rootTLDFlags quietEnv)).
  { vm_compute. repeat (first [left; reflexivity | right]). }
  split; [exact H|].
  exact (proj1 (hostmaster_default _ _ _ _ _ _ _ H) eq_refl).
Defined.

(** * Further properties of [main] *)

(** ** How startup ends *)

(** X1: startup ends in one of two ways, waiting for a signal or exit status
    1, and it completes exactly when the two companions are not both
    requested, the random bytes of a token that has to be generated can be
    read, and the DNS, HTTP and SMTP servers and the requested companion can
    be created. *)
Theorem startup_completes fl env :
  (result fl env = Done tt \/ result fl env = Exited 1) /\
  (result fl env = Done tt <->
   responder fl && smb fl = false /\
   (shouldEnableAuth (options fl) (smb fl) (responder fl) = true ->
    Token (options fl) = "" -> randErr env = false) /\
   dnsErr env = false /\ httpErr env = false /\ smtpErr env = false /\
   (responder fl = true -> responderErr env = false) /\
   (smb fl = true -> smbErr env = false)).
Proof.
  rewrite result_eq, needsToken_eq, enableAuth_eq.
  set (ea := shouldEnableAuth (options fl) (smb fl) (responder fl)).
  match goal with
  | |- context [if ?c then _ else _] => destruct c eqn:E
  end.
  - split; [auto|]. split; [discriminate|].
    intros (C & T & D & H & S & R & M).
    assert (N : ea && (Token (options fl) =? "")%string && randErr env = false).
    { destruct ea; [|reflexivity].
      destruct (String.eqb_spec (Token (options fl)) ""); [|reflexivity].
      cbn. auto. }
    assert (R' : responder fl && responderErr env = false).
    { destruct (responder fl); cbn; auto. }
    assert (M' : smb fl && smbErr env = false).
    { destruct (smb fl); cbn; auto. }
    rewrite C, N, D, H, S, R', M' in E. discriminate E.
  - split; [auto|]. split; [intros _|reflexivity].
    apply orb_false_iff in E as [E Hm]. apply orb_false_iff in E as [E Hr].
    apply orb_false_iff in E as [E Hs]. apply orb_false_iff in E as [E Hh].
    apply orb_false_iff in E as [E Hd]. apply orb_false_iff in E as [Hc Ht].
    repeat split; auto.
    + intros Ha Hk. fold ea in Ha. rewrite Ha, Hk in Ht. exact Ht.
    + intros H. rewrite H in Hr. exact Hr.
    + intros H. rewrite H in Hm. exact Hm.
Qed.

(** ** The store and the options of the servers *)

Lemma generatedToken_nonempty env : generatedToken env <> "".
Proof.
  intros H. pose proof (generatedToken_length env) as L.
  rewrite H in L. discriminate L.
Qed.

Lemma served_fields fl env :
  Domain (served fl env) = Domain (options fl) /\
  IPAddress (served fl env) = IPAddress (options fl) /\
  ListenIP (served fl env) = ListenIP (options fl) /\
  Auth (served fl env) = Auth (options fl) /\
  Template (served fl env) = Template (options fl) /\
  OriginURL (served fl env) = OriginURL (options fl) /\
  RootTLD (served fl env) = RootTLD (options fl) /\
  Token (served fl env) =
    (if needsToken fl then generatedToken env else Token (options fl)).
Proof.
  unfold served, configured, withHostmaster.
  destruct (needsToken fl), (String.eqb (Hostmaster (options fl)) "");
    cbn; repeat split.
Qed.

Lemma setID_calls fl env :
  reachesStore fl env = true ->
  List.filter isSetID (calls fl env) =
    (if enableAuth fl
     then [StorageSetID 0%nat (Token (configured fl env))
                        (setIDErr env (Token (configured fl env)))]
     else [])
    ++ (if RootTLD (configured fl env)
        then [StorageSetID 0%nat (Domain (configured fl env))
                           (setIDErr env (Domain (configured fl env)))]
        else []).
Proof.
  intros R. rewrite (calls_started fl env R), !List.filter_app.
  rewrite listenerCalls_filter, app_nil_r by now intros [].
  unfold configureCalls, loggerSetup, storeCalls.
  destruct (debug fl), (needsToken fl), (enableAuth fl),
    (RootTLD (configured fl env)); reflexivity.
Qed.

(** X2: in a run that gets to the construction of the store the calls of
    [SetID] are, in this order, the token when authentication is enabled and
    the domain when root-TLD mode is on, both on the store just created, and
    nothing else. *)
Theorem store_registrations fl env :
  reachesStore fl env = true ->
  List.filter isSetID (calls fl env) =
    (if shouldEnableAuth (options fl) (smb fl) (responder fl)
     then [StorageSetID 0%nat (Token (served fl env))
                        (setIDErr env (Token (served fl env)))]
     else [])
    ++ (if RootTLD (options fl)
        then [StorageSetID 0%nat (Domain (options fl))
                           (setIDErr env (Domain (options fl)))]
        else []).
Proof.
  intros R. rewrite (setID_calls fl env R), <- enableAuth_eq.
  destruct (configured_fields fl env) as (-> & _ & -> & _).
  reflexivity.
Qed.

Lemma store_registrations_witness :
  reachesStore rootTLDFlags quietEnv = true /\
  List.filter isSetID (calls rootTLDFlags quietEnv) =
    [StorageSetID 0%nat (generatedToken quietEnv) false;
     StorageSetID 0%nat "example.com" false].
Proof.
  split; [reflexivity|].
  exact (store_registrations rootTLDFlags quietEnv eq_refl).
Defined.

(** X3: without template upload, companions, root-TLD mode and token, with
    or without [-auth], startup reads no random bytes and registers nothing
    in the store, and every server is created with an empty token and with
    [Auth] as the flag gave it. *)
Theorem auth_flag_alone fl env :
  Template (options fl) = false -> smb fl = false -> responder fl = false ->
  RootTLD (options fl) = false -> Token (options fl) = "" ->
  List.filter isSetID (calls fl env) = [] /\
  List.filter isRandRead (calls fl env) = [] /\
  (forall e o, In e (calls fl env) -> serverOptions e = Some o ->
               Token o = "" /\ Auth o = Auth (options fl)).
Proof.
  intros HT Hs Hr HR Hk.
  assert (Ha : enableAuth fl = false).
  { rewrite enableAuth_eq. unfold shouldEnableAuth, nonEmpty.
    now rewrite HT, Hs, Hr, HR, Hk. }
  assert (Hn : needsToken fl = false) by now rewrite needsToken_eq, Ha.
  assert (R : reachesStore fl env = true).
  { unfold reachesStore. now rewrite Hr, Hn. }
  split; [|split].
  - rewrite (setID_calls fl env R), Ha.
    destruct (configured_fields fl env) as (_ & _ & -> & _).
    rewrite HR. reflexivity.
  - rewrite filter_calls, Hn by (auto; now intros []). reflexivity.
  - intros e o He Ho.
    apply in_listenerCalls in He as [_ He];
      [|eapply serverOptions_touches; exact Ho].
    rewrite (listeners_options _ _ _ _ _ _ He Ho).
    destruct (served_fields fl env) as (_ & _ & _ & -> & _ & _ & _ & ->).
    now rewrite Hn.
Qed.

Lemma auth_flag_alone_witness :
  Auth (options authOnlyFlags) = true /\
  List.filter isSetID (calls authOnlyFlags quietEnv) = [] /\
  List.filter isRandRead (calls authOnlyFlags quietEnv) = [].
Proof.
  split; [reflexivity|].
  destruct (auth_flag_alone authOnlyFlags quietEnv eq_refl eq_refl eq_refl
              eq_refl eq_refl) as (H1 & H2 & _).
  exact (conj H1 H2).
Defined.

(** X4: every server is created with the domain, the addresses, the origin
    URL and the [Auth], [Template] and [RootTLD] toggles of the command line
    ([main] never writes them, [Auth] included); a supplied token is passed
    on as it is, and whenever authentication is enabled the token the
    servers get is not empty. *)
Theorem server_options fl env e o :
  In e (calls fl env) -> serverOptions e = Some o ->
  Domain o = Domain (options fl) /\
  IPAddress o = IPAddress (options fl) /\
  ListenIP o = ListenIP (options fl) /\
  Auth o = Auth (options fl) /\
  Template o = Template (options fl) /\
  OriginURL o = OriginURL (options fl) /\
  RootTLD o = RootTLD (options fl) /\
  (Token (options fl) <> "" -> Token o = Token (options fl)) /\
  (shouldEnableAuth (options fl) (smb fl) (responder fl) = true ->
   Token o <> "").
Proof.
  intros He Ho.
  apply in_listenerCalls in He as [_ He];
    [|eapply serverOptions_touches; exact Ho].
  rewrite (listeners_options _ _ _ _ _ _ He Ho).
  destruct (served_fields fl env)
    as (-> & -> & -> & -> & -> & -> & -> & ->).
  repeat split; try reflexivity.
  - intros Hk. rewrite needsToken_eq.
    apply String.eqb_neq in Hk. rewrite Hk, andb_false_r. reflexivity.
  - intros Ha. rewrite needsToken_eq, enableAuth_eq, Ha. cbn.
    destruct (String.eqb_spec (Token (options fl)) "") as [E | E];
      [apply generatedToken_nonempty | exact E].
Qed.

Lemma server_options_witness :
  In (NewDNSServer (served authOnlyFlags quietEnv) (Some 1%nat))
     (calls authOnlyFlags quietEnv) /\
  Auth (served authOnlyFlags quietEnv) = true /\
  Domain (served authOnlyFlags quietEnv) = "example.com".
Proof.
  assert (H : In (NewDNSServer (served authOnlyFlags quietEnv) (Some 1%nat))
                 (calls authOnlyFlags quietEnv)).
  { vm_compute. repeat (first [left; reflexivity | right]). }
  split; [exact H|].
  destruct (server_options _ _ _ _ H eq_refl) as (H1 & _ & _ & H2 & _).
  exact (conj H2 H1).
Defined.

(** ** The listeners *)

Lemma listeners_started_created fl o env n t :
  In (Go t) (listenerCalls fl o env n) ->
  In (constructorOf o t) (listenerCalls fl o env n).
Proof.
  listeners_cases fl o env n L R EL ER; intros H; member H EL;
    cbn [constructorOf In]; auto 20.
Qed.

Lemma listeners_created_started fl o env n e srv :
  In e (listenerCalls fl o env n) -> created e = Some srv ->
  exists t, In (Go t) (listenerCalls fl o env n) /\ serverOf t = srv /\
            constructorOf o t = e.
Proof.
  listeners_cases fl o env n L R EL ER; intros H; member H EL;
    cbn [created]; intros [=]; subst;
    match goal with
    | |- exists t, _ /\ _ /\ _ = NewDNSServer _ (Some ?s) =>
        exists (DNSListenAndServe s)
    | |- exists t, _ /\ _ /\ _ = NewHTTPServer _ (Some ?s) =>
        eexists (HTTPListenAndServe s _)
    | |- exists t, _ /\ _ /\ _ = NewSMTPServer _ (Some ?s) =>
        eexists (SMTPListenAndServe s _)
    | |- exists t, _ /\ _ /\ _ = NewResponderServer _ (Some ?s) =>
        exists (ResponderListenAndServe s)
    | |- exists t, _ /\ _ /\ _ = NewSMBServer _ (Some ?s) =>
        exists (SMBListenAndServe s)
    end;
    (split; [cbn [In]; eauto 20 | split; reflexivity]).
Qed.

Lemma created_touches e srv : created e = Some srv -> touchesListener e = true.
Proof. now destruct e. Qed.

(** X5: every listener goroutine serves a server its constructor returned
    earlier in the same run, and every server a constructor returned gets
    its listener goroutine: none is created and left unstarted. *)
Theorem servers_created_and_started fl env :
  (forall t, In (Go t) (calls fl env) ->
             In (constructorOf (served fl env) t) (calls fl env)) /\
  (forall e srv, In e (calls fl env) -> created e = Some srv ->
     exists t, In (Go t) (calls fl env) /\ serverOf t = srv /\
               constructorOf (served fl env) t = e).
Proof.
  split.
  - intros t H. apply in_listenerCalls in H as [R H]; [|reflexivity].
    rewrite (calls_started fl env R).
    apply in_or_app; right; apply in_or_app; right.
    now apply listeners_started_created.
  - intros e srv H Hc.
    apply in_listenerCalls in H as [R H]; [|eapply created_touches; exact Hc].
    destruct (listeners_created_started _ _ _ _ _ _ H Hc) as (t & Ht & Hs & He).
    exists t. split; [|auto].
    rewrite (calls_started fl env R).
    apply in_or_app; right; apply in_or_app; now right.
Qed.

Lemma listeners_companion_flags fl o env n :
  (forall o' srv, In (NewResponderServer o' srv) (listenerCalls fl o env n) ->
                  responder fl = true) /\
  (forall o' srv, In (NewSMBServer o' srv) (listenerCalls fl o env n) ->
                  smb fl = true).
Proof.
  listeners_cases fl o env n L R EL ER; split; intros o' srv H; member H EL;
    congruence.
Qed.

(** X6: no run calls both companion constructors: the responder and the SMB
    server are never created in the same process. *)
Theorem one_companion fl env :
  (forall o srv, ~ In (NewResponderServer o srv) (calls fl env)) \/
  (forall o srv, ~ In (NewSMBServer o srv) (calls fl env)).
Proof.
  destruct (listeners_companion_flags fl (served fl env) env 1%nat) as [Hr Hs].
  destruct (responder fl) eqn:R.
  - right. intros o srv H.
    apply in_listenerCalls in H as [S H]; [|reflexivity].
    apply Hs in H. unfold reachesStore in S. rewrite R, H in S. discriminate S.
  - left. intros o srv H.
    apply in_listenerCalls in H as [_ H]; [|reflexivity].
    apply Hr in H. discriminate H.
Qed.

(** ** What is logged *)

Lemma listeners_fatal_message fl o env n e :
  In e (listenerCalls fl o env n) -> failure e = true ->
  exists rest,
    rev (listenerCalls fl o env n) =
    Gologger LevelFatal (fatalMessage e) :: e :: rest.
Proof.
  listeners_cases fl o env n L R EL ER; intros H F;
    (apply (In_kind failure) in H; [|exact F]);
    rewrite EL in H; cbv [List.filter failure] in H; cbn [In] in H;
    event_inv; subst; eexists; cbn [rev app fatalMessage]; reflexivity.
Qed.

(** X7: a failed call is followed by exactly one more call, the fatal log
    line with the message of that call, and the process exits with status 1;
    the message of a failed responder constructor is the one of the SMB
    constructor. *)
Theorem fatal_message fl env e :
  In e (calls fl env) -> failure e = true ->
  result fl env = Exited 1 /\
  exists pre, calls fl env = pre ++ [e; Gologger LevelFatal (fatalMessage e)].
Proof.
  intros H F. destruct (reachesStore fl env) eqn:R.
  - rewrite (calls_started fl env R) in H |- *.
    apply in_app_or in H as [H | H].
    { pose proof (proj1 (List.Forall_forall _ _)
                    (configureCalls_nofail fl env) e H). congruence. }
    apply in_app_or in H as [H | H].
    { pose proof (proj1 (List.Forall_forall _ _)
                    (storeCalls_nofail fl _ _ _ env) e H). congruence. }
    destruct (listeners_fatal_message _ _ _ _ _ H F) as [rest Hr].
    split.
    + rewrite (result_started fl env R).
      destruct (listeners_outcome fl (served fl env) env 1%nat)
        as [[_ HF] | [HR _]]; [|exact HR].
      pose proof (proj1 (List.Forall_forall _ _) HF e H). congruence.
    + apply rev_two in Hr. rewrite Hr.
      exists (configureCalls fl env
              ++ storeCalls fl (enableAuth fl) (configured fl env) 0%nat env
              ++ rev rest).
      now rewrite <- !app_assoc.
  - destruct (run_stopped fl env R) as [HR [Hc | Hc]]; rewrite Hc in H |- *;
      (split; [exact HR|]);
      unfold loggerSetup in H; destruct (debug fl) eqn:D;
      cbn [In] in H; event_inv; try discriminate F.
    all: exists [loggerSetup fl]; unfold loggerSetup; rewrite D; reflexivity.
Qed.

Lemma fatal_message_witness :
  In (NewResponderServer (served responderFlags responderFailsEnv) None)
     (calls responderFlags responderFailsEnv) /\
  exists pre,
    calls responderFlags responderFailsEnv =
    pre ++ [NewResponderServer (served responderFlags responderFailsEnv) None;
            Gologger LevelFatal "Could not create SMB server"].
Proof.
  assert (H : In (NewResponderServer (served responderFlags responderFailsEnv)
                                     None)
                 (calls responderFlags responderFailsEnv)).
  { vm_compute. repeat (first [left; reflexivity | right]). }
  split; [exact H|].
  exact (proj2 (fatal_message _ _ _ H eq_refl)).
Defined.

Lemma listeners_logs fl o env n :
  (listenerResult fl o env n = Done tt ->
   exists rest,
     rev (listenerCalls fl o env n) =
     SignalNotify :: LogPrintf listeningMessage :: rest) /\
  (forall s, In (LogPrintf s) (listenerCalls fl o env n) ->
             s = listeningMessage /\ listenerResult fl o env n = Done tt) /\
  (In SignalNotify (listenerCalls fl o env n) ->
   listenerResult fl o env n = Done tt).
Proof.
  listeners_cases fl o env n L R EL ER; subst L R.
  all: split; [ first [ discriminate 1
                      | intros _; eexists; cbn [rev app]; reflexivity ] | ].
  all: split; [ intros s H | intros H ]; cbn [In] in H; event_inv;
    auto.
Qed.

Lemma clientToken_not_listening t : clientTokenMessage t <> listeningMessage.
Proof.
  unfold clientTokenMessage, listeningMessage.
  cbv [String.append]. discriminate.
Qed.

(** X8: the line "Listening on DNS, SMTP and HTTP ports" is printed exactly
    in the runs that complete, where it is the last call but one, before
    [signal.Notify]. *)
Theorem listening_line fl env :
  (result fl env = Done tt <-> In (LogPrintf listeningMessage) (calls fl env)) /\
  (result fl env = Done tt <-> In SignalNotify (calls fl env)) /\
  (result fl env = Done tt ->
   exists pre, calls fl env = pre ++ [LogPrintf listeningMessage; SignalNotify]).
Proof.
  destruct (reachesStore fl env) eqn:R.
  - rewrite (calls_started fl env R), (result_started fl env R).
    destruct (listeners_logs fl (served fl env) env 1%nat) as (H1 & H2 & H3).
    assert (T : listenerResult fl (served fl env) env 1%nat = Done tt ->
                exists pre, listenerCalls fl (served fl env) env 1%nat =
                            pre ++ [LogPrintf listeningMessage; SignalNotify]).
    { intros HD. destruct (H1 HD) as [rest Hr]. apply rev_two in Hr. eauto. }
    split; [|split].
    + split.
      * intros HD. destruct (T HD) as [pre ->].
        apply in_or_app; right; apply in_or_app; right.
        apply in_or_app; right. now left.
      * intros H. apply in_app_or in H as [H | H].
        { unfold configureCalls, loggerSetup in H.
          destruct (debug fl), (needsToken fl); cbn [In] in H; event_inv.
          all: exfalso; eapply clientToken_not_listening; eassumption. }
        apply in_app_or in H as [H | H]; [store_inv H|].
        now apply H2 in H.
    + split.
      * intros HD. destruct (T HD) as [pre ->].
        apply in_or_app; right; apply in_or_app; right.
        apply in_or_app; right. right. now left.
      * intros H. apply in_app_or in H as [H | H]; [configure_inv H|].
        apply in_app_or in H as [H | H]; [store_inv H|]. auto.
    + intros HD. destruct (T HD) as [pre ->].
      exists (configureCalls fl env
              ++ storeCalls fl (enableAuth fl) (configured fl env) 0%nat env
              ++ pre).
      now rewrite <- !app_assoc.
  - destruct (run_stopped fl env R) as [HR Hc]. rewrite HR.
    split; [|split]; [split | split | ]; try discriminate.
    all: intros H; exfalso; destruct Hc as [Hc | Hc]; rewrite Hc in H;
      unfold loggerSetup in H; destruct (debug fl); cbn [In] in H; event_inv.
Qed.

(** X9: [log.Printf] prints a token only when [main] generated it: apart from
    the listening line, the only line printed is the client token line of a
    generated token, in a run without a supplied token. *)
Theorem token_logging fl env s :
  In (LogPrintf s) (calls fl env) ->
  (s = listeningMessage /\ result fl env = Done tt) \/
  (s = clientTokenMessage (generatedToken env) /\
   Token (options fl) = "" /\
   shouldEnableAuth (options fl) (smb fl) (responder fl) = true /\
   randErr env = false).
Proof.
  intros H. destruct (reachesStore fl env) eqn:R.
  - rewrite (calls_started fl env R) in H.
    apply in_app_or in H as [H | H].
    + right. unfold configureCalls, loggerSetup in H.
      destruct (needsToken fl) eqn:N;
        destruct (debug fl); cbn [In] in H; event_inv; subst.
      all: split; [reflexivity|].
      all: rewrite needsToken_eq, enableAuth_eq in N.
      all: apply andb_true_iff in N as [Ha Hk].
      all: apply String.eqb_eq in Hk.
      all: repeat split; auto.
      all: unfold reachesStore in R; apply andb_true_iff in R as [_ R].
      all: apply negb_true_iff in R.
      all: rewrite needsToken_eq, enableAuth_eq, Ha, Hk in R; exact R.
    + apply in_app_or in H as [H | H]; [store_inv H|].
      left. rewrite (result_started fl env R).
      now apply (listeners_logs fl (served fl env) env 1%nat).
  - destruct (run_stopped fl env R) as [_ [Hc | Hc]]; rewrite Hc in H;
      unfold loggerSetup in H; destruct (debug fl); cbn [In] in H; event_inv.
Qed.

Lemma token_logging_witness :
  In (LogPrintf (clientTokenMessage (generatedToken quietEnv)))
     (calls rootTLDFlags quietEnv) /\
  Token (options rootTLDFlags) = "".
Proof.
  assert (H : In (LogPrintf (clientTokenMessage (generatedToken quietEnv)))
                 (calls rootTLDFlags quietEnv)).
  { vm_compute. repeat (first [left; reflexivity | right]). }
  split; [exact H|].
  destruct (token_logging _ _ _ H) as [[E _] | (_ & E & _)].
  - exfalso. exact (clientToken_not_listening _ E).
  - exact E.
Defined.

(** ** The certificate, the logger and the scripting hooks *)

Lemma listeners_acme_once fl o env n :
  (skipacme fl = true ->
   List.filter (fun e => isACME e || isWarning e) (listenerCalls fl o env n)
   = []) /\
  (skipacme fl = false ->
   forall d, In (Go (DNSListenAndServe d)) (listenerCalls fl o env n) ->
   exists tls,
     List.filter isACME (listenerCalls fl o env n) =
     [NewAutomaticTLS (Hostmaster o) (certDomains o) (SetTxtRecordOf d) tls
                      (acmeErr env)] /\
     List.filter isWarning (listenerCalls fl o env n) =
     match acmeErr env with
     | Some err => [Gologger LevelWarning (acmeWarning err);
                    Gologger LevelWarning httpsDisabled]
     | None => []
     end).
Proof.
  listeners_cases fl o env n L R EL ER; subst L R;
    (split; [ first [ discriminate 1 | intros _; reflexivity ] | ]);
    first [ discriminate 1 | intros _ d H ];
    cbn [In] in H; event_inv; subst;
    eexists; split; reflexivity.
Qed.

Lemma filter_setup_none (P : Event -> bool) fl env :
  (forall e, listenerEvent e = false -> P e = false) ->
  List.filter P (configureCalls fl env) =
    List.filter P (if needsToken fl
                   then [LogPrintf (clientTokenMessage (generatedToken env))]
                   else []) /\
  List.filter P (storeCalls fl (enableAuth fl) (configured fl env) 0%nat env)
  = [].
Proof.
  intros HP. split.
  - unfold configureCalls, loggerSetup.
    destruct (debug fl), (needsToken fl); cbn [List.filter];
      rewrite ?HP by reflexivity; reflexivity.
  - unfold storeCalls.
    destruct (enableAuth fl), (RootTLD (configured fl env));
      cbn [List.filter app]; rewrite ?HP by reflexivity; reflexivity.
Qed.

(** X10: with [-skip-acme] no certificate is requested and no warning is
    logged; without it, a run that has started the DNS listener requests a
    certificate exactly once, with a callback into that DNS server, and logs
    two warnings when the request fails and none otherwise. *)
Theorem certificate_request fl env :
  (skipacme fl = true ->
   List.filter (fun e => isACME e || isWarning e) (calls fl env) = []) /\
  (skipacme fl = false ->
   forall d, In (Go (DNSListenAndServe d)) (calls fl env) ->
   exists email domains tls,
     List.filter isACME (calls fl env) =
     [NewAutomaticTLS email domains (SetTxtRecordOf d) tls (acmeErr env)] /\
     List.filter isWarning (calls fl env) =
     match acmeErr env with
     | Some err => [Gologger LevelWarning (acmeWarning err);
                    Gologger LevelWarning httpsDisabled]
     | None => []
     end).
Proof.
  split.
  - intros S. destruct (reachesStore fl env) eqn:R.
    + rewrite (calls_started fl env R), !List.filter_app.
      destruct (filter_setup_none (fun e => isACME e || isWarning e) fl env)
        as [-> ->]; [now intros []|].
      rewrite (proj1 (listeners_acme_once fl _ env _) S).
      now destruct (needsToken fl).
    + destruct (run_stopped fl env R) as [_ [-> | ->]];
        unfold loggerSetup; now destruct (debug fl).
  - intros S d H. apply in_listenerCalls in H as [R H]; [|reflexivity].
    destruct (proj2 (listeners_acme_once fl _ env _) S d H) as (tls & H1 & H2).
    exists (Hostmaster (served fl env)), (certDomains (served fl env)), tls.
    rewrite (calls_started fl env R), !List.filter_app.
    destruct (filter_setup_none isACME fl env) as [-> ->]; [now intros []|].
    destruct (filter_setup_none isWarning fl env) as [-> ->];
      [intros [] E; try reflexivity; discriminate E|].
    rewrite H1, H2. now destruct (needsToken fl).
Qed.

(** X11: the first call of every run configures the logger, and no later
    call does: the level is raised to debug with [-debug], the no-op
    writer is installed without it. *)
Theorem logger_first fl env :
  exists rest,
    calls fl env = loggerSetup fl :: rest /\
    List.filter configuresLogger rest = [] /\
    (debug fl = true -> loggerSetup fl = LoggerSetMaxLevel LevelDebug) /\
    (debug fl = false -> loggerSetup fl = LoggerSetWriter noopWriter).
Proof.
  assert (HL : (debug fl = true -> loggerSetup fl = LoggerSetMaxLevel LevelDebug)
               /\ (debug fl = false ->
                   loggerSetup fl = LoggerSetWriter noopWriter)).
  { unfold loggerSetup. destruct (debug fl); split; auto; discriminate. }
  destruct (reachesStore fl env) eqn:R.
  - eexists. split; [rewrite (calls_started fl env R); reflexivity|].
    split; [|exact HL].
    rewrite !List.filter_app, listenerCalls_filter by now intros [].
    unfold storeCalls.
    destruct (needsToken fl), (enableAuth fl), (RootTLD (configured fl env));
      reflexivity.
  - destruct (run_stopped fl env R) as [_ [-> | ->]];
      eexists; (split; [reflexivity|]); (split; [reflexivity | exact HL]).
Qed.

(** X12: in a run that gets to the construction of the store, that store is
    made the global one and the hooks store_info and cleanup_info are
    registered for it once each, whatever [nebula.AddFunc] returns, before
    anything is registered in the store and before any server is created. *)
Theorem nebula_hooks fl env :
  reachesStore fl env = true ->
  exists ttl store,
    List.filter constructsStore (calls fl env) = [StorageNew ttl store] /\
    List.filter usesNebula (calls fl env) =
      [SetGlobalStorage store; NebulaRefresh;
       NebulaAddFunc "store_info" SetInternalById store
                     (addFuncErr env "store_info");
       NebulaAddFunc "cleanup_info" CleanupInternalById store
                     (addFuncErr env "cleanup_info")] /\
    exists pre post,
      calls fl env = pre ++ post /\
      List.filter usesNebula post = [] /\
      Forall (fun e => touchesListener e = false /\ isSetID e = false) pre /\
      Forall (fun e => constructsStore e = false) post.
Proof.
  intros R. exists (evictionTTL (eviction fl)), 0%nat.
  split; [|split].
  - rewrite filter_calls by (auto; now intros []).
    now destruct (needsToken fl).
  - rewrite (calls_started fl env R), !List.filter_app.
    rewrite listenerCalls_filter, app_nil_r by now intros [].
    unfold configureCalls, loggerSetup, storeCalls.
    destruct (debug fl), (needsToken fl), (enableAuth fl),
      (RootTLD (configured fl env)); reflexivity.
  - exists (configureCalls fl env
            ++ [StorageNew (evictionTTL (eviction fl)) 0%nat;
                SetGlobalStorage 0%nat; NebulaRefresh;
                NebulaAddFunc "store_info" SetInternalById 0%nat
                              (addFuncErr env "store_info");
                NebulaAddFunc "cleanup_info" CleanupInternalById 0%nat
                              (addFuncErr env "cleanup_info")]),
      ((if enableAuth fl
        then [StorageSetID 0%nat (Token (configured fl env))
                           (setIDErr env (Token (configured fl env)))]
        else [])
       ++ (if RootTLD (configured fl env)
           then [StorageSetID 0%nat (Domain (configured fl env))
                              (setIDErr env (Domain (configured fl env)))]
           else [])
       ++ listenerCalls fl (served fl env) env 1%nat).
    split; [|split; [|split]].
    + rewrite (calls_started fl env R). unfold storeCalls.
      now rewrite <- !app_assoc.
    + rewrite !List.filter_app, listenerCalls_filter by now intros [].
      now destruct (enableAuth fl), (RootTLD (configured fl env)).
    + apply Forall_app. split.
      * unfold configureCalls, loggerSetup.
        destruct (debug fl), (needsToken fl); repeat constructor.
      * repeat constructor.
    + apply Forall_app. split;
        [destruct (enableAuth fl); repeat constructor|].
      apply Forall_app. split;
        [destruct (RootTLD (configured fl env)); repeat constructor|].
      eapply List.Forall_impl; [|apply listenerCalls_kind].
      now intros [].
Qed.

Lemma nebula_hooks_witness :
  reachesStore defaultFlags quietEnv = true /\
  List.filter usesNebula (calls defaultFlags quietEnv) =
    [SetGlobalStorage 0%nat; NebulaRefresh;
     NebulaAddFunc "store_info" SetInternalById 0%nat false;
     NebulaAddFunc "cleanup_info" CleanupInternalById 0%nat false].
Proof.
  split; [reflexivity|].
  destruct (nebula_hooks defaultFlags quietEnv eq_refl)
    as (ttl & store & H1 & H2 & _).
  vm_compute in H1. injection H1 as _ <-. exact H2.
Defined.

(** ** [strings.TrimSuffix] and the certificate's domains *)

Lemma append_cons c p q : String c p +:+ q = String c (p +:+ q).
Proof. reflexivity. Qed.

Lemma HasSuffix_refl s : gostrings.HasSuffix s s = true.
Proof. destruct s; cbn [gostrings.HasSuffix]; now rewrite String.eqb_refl. Qed.

Lemma HasSuffix_app p suffix : gostrings.HasSuffix (p +:+ suffix) suffix = true.
Proof.
  induction p as [| c p IH]; [apply HasSuffix_refl|].
  rewrite append_cons. cbn [gostrings.HasSuffix].
  destruct (String.eqb _ _); [reflexivity | exact IH].
Qed.

Lemma HasSuffix_true s suffix :
  gostrings.HasSuffix s suffix = true -> exists p, s = p +:+ suffix.
Proof.
  induction s as [| c s IH]; cbn [gostrings.HasSuffix].
  - destruct (String.eqb_spec "" suffix) as [<- | _]; [|discriminate].
    now exists "".
  - destruct (String.eqb_spec (String c s) suffix) as [<- | _].
    + now exists "".
    + intros H. destruct (IH H) as [p ->]. now exists (String c p).
Qed.

Lemma length_append p q :
  String.length (p +:+ q) = (String.length p + String.length q)%nat.
Proof.
  induction p as [| c p IH]; [reflexivity|].
  rewrite append_cons. cbn [String.length]. now rewrite IH.
Qed.

Lemma substring_prefix p q : String.substring 0 (String.length p) (p +:+ q) = p.
Proof.
  induction p as [| c p IH].
  - cbn [String.length]. now destruct ("" +:+ q).
  - rewrite append_cons. cbn [String.length String.substring]. now rewrite IH.
Qed.

(** [TrimSuffix] takes exactly one copy of the suffix away. *)
Lemma TrimSuffix_app p suffix : gostrings.TrimSuffix (p +:+ suffix) suffix = p.
Proof.
  unfold gostrings.TrimSuffix. rewrite HasSuffix_app, length_append.
  replace (String.length p + String.length suffix - String.length suffix)%nat
    with (String.length p) by lia.
  apply substring_prefix.
Qed.

Lemma TrimSuffix_cases s suffix :
  (exists p, s = p +:+ suffix /\ gostrings.TrimSuffix s suffix = p) \/
  ((forall p, s <> p +:+ suffix) /\ gostrings.TrimSuffix s suffix = s).
Proof.
  destruct (gostrings.HasSuffix s suffix) eqn:E.
  - left. destruct (HasSuffix_true s suffix E) as [p ->].
    exists p. split; [reflexivity | apply TrimSuffix_app].
  - right. split.
    + intros p ->. rewrite HasSuffix_app in E. discriminate E.
    + unfold gostrings.TrimSuffix. now rewrite E.
Qed.

(** X13: the certificate is requested for the wildcard of [d] and for [d],
    where [d] is the configured domain without one trailing dot: either the
    domain is [d] followed by a dot, or it is [d] and does not end in a
    dot. *)
Theorem certificate_domains fl env email domains cb tls err :
  In (NewAutomaticTLS email domains cb tls err) (calls fl env) ->
  exists d,
    domains = "*." +:+ d +:+ "," +:+ d /\
    (Domain (options fl) = d +:+ "." \/
     (Domain (options fl) = d /\ forall p, d <> p +:+ ".")).
Proof.
  intros H. apply in_listenerCalls in H as [_ H]; [|reflexivity].
  apply listeners_acme in H as (_ & -> & _).
  unfold certDomains.
  destruct (served_fields fl env) as (-> & _).
  exists (gostrings.TrimSuffix (Domain (options fl)) ".").
  split; [reflexivity|].
  destruct (TrimSuffix_cases (Domain (options fl)) ".")
    as [(p & Hp & ->) | (Hn & ->)]; auto.
Qed.

Lemma certificate_domains_witness :
  In (NewAutomaticTLS "admin@example.com." "*.example.com,example.com"
                      (SetTxtRecordOf 1%nat) (Some 2%nat) None)
     (calls dottedFlags quietEnv) /\
  exists d,
    "*.example.com,example.com" = "*." +:+ d +:+ "," +:+ d /\
    (Domain (options dottedFlags) = d +:+ "." \/
     (Domain (options dottedFlags) = d /\ forall p, d <> p +:+ ".")).
Proof.
  assert (H : In (NewAutomaticTLS "admin@example.com."
                                  "*.example.com,example.com"
                                  (SetTxtRecordOf 1%nat) (Some 2%nat) None)
                 (calls dottedFlags quietEnv)).
  { vm_compute. repeat (first [left; reflexivity | right]). }
  split; [exact H|].
  exact (certificate_domains _ _ _ _ _ _ _ H).
Defined.

(** ** The generated token *)

Lemma encodeByte_hex b s :
  allHexDigits (hex.encodeByte b +:+ s) = allHexDigits s.
Proof. destruct b; reflexivity. Qed.

Lemma EncodeToString_hex bs : allHexDigits (hex.EncodeToString bs) = true.
Proof.
  induction bs as [| b bs IH]; [reflexivity|].
  cbn [hex.EncodeToString]. now rewrite encodeByte_hex.
Qed.

(** X14: a token [main] generates is the hexadecimal encoding of the 32
    bytes read: 64 characters, all among 0-9 and a-f, and two reads give
    the same token only if they gave the same bytes. *)
Theorem generated_token_shape fl env e o :
  In e (calls fl env) -> serverOptions e = Some o ->
  Token (options fl) = "" ->
  shouldEnableAuth (options fl) (smb fl) (responder fl) = true ->
  Token o = hex.EncodeToString (randomBytes env) /\
  String.length (Token o) = 64%nat /\
  allHexDigits (Token o) = true /\
  (forall env', generatedToken env' = Token o <->
                randomBytes env' = randomBytes env).
Proof.
  intros He Ho Hk Ha.
  apply in_listenerCalls in He as [_ He];
    [|eapply serverOptions_touches; exact Ho].
  rewrite (listeners_options _ _ _ _ _ _ He Ho).
  destruct (served_fields fl env) as (_ & _ & _ & _ & _ & _ & _ & ->).
  rewrite needsToken_eq, enableAuth_eq, Ha, Hk. cbn [andb String.eqb].
  split; [reflexivity|]. split; [apply generatedToken_length|].
  split; [apply EncodeToString_hex|].
  intros env'. split.
  - apply hex_encode_inj.
  - unfold generatedToken. now intros ->.
Qed.

Lemma generated_token_shape_witness :
  In (NewDNSServer (served rootTLDFlags quietEnv) (Some 1%nat))
     (calls rootTLDFlags quietEnv) /\
  String.length (Token (served rootTLDFlags quietEnv)) = 64%nat /\
  allHexDigits (Token (served rootTLDFlags quietEnv)) = true.
Proof.
  assert (H : In (NewDNSServer (served rootTLDFlags quietEnv) (Some 1%nat))
                 (calls rootTLDFlags quietEnv)).
  { vm_compute. repeat (first [left; reflexivity | right]). }
  split; [exact H|].
  destruct (generated_token_shape _ _ _ _ H eq_refl eq_refl eq_refl)
    as (_ & H1 & H2 & _).
  exact (conj H1 H2).
Defined.

(** ** The hostmaster of the servers *)

Lemma served_hostmaster fl env :
  Hostmaster (served fl env) =
  (if String.eqb (Hostmaster (options fl)) ""
   then "admin@" +:+ Domain (options fl)
   else Hostmaster (options fl)).
Proof.
  unfold served. cbn [Hostmaster setStorage].
  destruct (configured_fields fl env) as (_ & -> & _).
  unfold withHostmaster. now destruct (String.eqb _ _).
Qed.

(** X15: every server is created with a hostmaster that is not empty: the
    one of the command line, or "admin@" followed by the domain as it was
    given (a trailing dot included) when there is none; it is the address
    the certificate is requested with. *)
Theorem server_hostmaster fl env e o :
  In e (calls fl env) -> serverOptions e = Some o ->
  Hostmaster o <> "" /\
  (Hostmaster (options fl) = "" ->
   Hostmaster o = "admin@" +:+ Domain (options fl)) /\
  (Hostmaster (options fl) <> "" -> Hostmaster o = Hostmaster (options fl)) /\
  (forall email domains cb tls err,
      In (NewAutomaticTLS email domains cb tls err) (calls fl env) ->
      email = Hostmaster o).
Proof.
  intros He Ho.
  apply in_listenerCalls in He as [_ He];
    [|eapply serverOptions_touches; exact Ho].
  rewrite (listeners_options _ _ _ _ _ _ He Ho), served_hostmaster.
  destruct (String.eqb_spec (Hostmaster (options fl)) "") as [E | E].
  - split; [rewrite append_cons; discriminate|].
    split; [reflexivity|]. split; [contradiction|].
    intros email domains cb tls err H.
    apply in_listenerCalls in H as [_ H]; [|reflexivity].
    apply listeners_acme in H as (-> & _).
    rewrite served_hostmaster, E. reflexivity.
  - split; [exact E|]. split; [contradiction|]. split; [reflexivity|].
    intros email domains cb tls err H.
    apply in_listenerCalls in H as [_ H]; [|reflexivity].
    apply listeners_acme in H as (-> & _).
    rewrite served_hostmaster.
    apply String.eqb_neq in E. now rewrite E.
Qed.

Lemma server_hostmaster_witness :
  In (NewHTTPServer (served dottedFlags quietEnv) (Some 3%nat))
     (calls dottedFlags quietEnv) /\
  Hostmaster (served dottedFlags quietEnv) = "admin@example.com.".
Proof.
  assert (H : In (NewHTTPServer (served dottedFlags quietEnv) (Some 3%nat))
                 (calls dottedFlags quietEnv)).
  { vm_compute. repeat (first [left; reflexivity | right]). }
  split; [exact H|].
  destruct (server_hostmaster _ _ _ _ H eq_refl) as (_ & H1 & _).
  exact (H1 eq_refl).
Defined.
